(** * multimodel_rag: a shallow embedding of [main.py]

    The engine class [AdvancedRAGEngine] of [main.py] is embedded as pure
    functions over an explicit engine record.  Python values are modelled as
    the code has them:

    - a [str] is a list of Unicode code points,
    - an [int] is a [Z],
    - a raised exception is the left summand of a result,
    - the fields of [self] are the fields of the record [Engine], and a
      method that assigns fields returns the engine it leaves behind, also
      when it raises. *)

From Stdlib Require Import String Ascii.
From Stdlib Require Import List ZArith NArith QArith Bool Lia.
From Stdlib Require Import Sorted Permutation Lqa.
Import ListNotations.

Set Implicit Arguments.

Local Open Scope Z_scope.

(* ===================================================================== *)
(** * Python strings *)
(* ===================================================================== *)

Module PyStr.

(** A Python [str]: a sequence of code points. *)
Definition char := N.
Definition str := list char.

(** A literal of the source, written in ASCII. *)
Definition lit (s : string) : str :=
  List.map N_of_ascii (list_ascii_of_string s).

(** [str.isspace] on one code point: the table behind [str.split()] and
    [str.strip()] called without argument. *)
Definition is_space (c : char) : bool :=
  ((9 <=? c) && (c <=? 13) ||
   (28 <=? c) && (c <=? 32) ||
   (c =? 133) || (c =? 160) || (c =? 5760) ||
   (8192 <=? c) && (c <=? 8202) ||
   (c =? 8232) || (c =? 8233) || (c =? 8239) || (c =? 8287) ||
   (c =? 12288))%N.

(** Truth value of a string: non-empty. *)
Definition truthy (s : str) : bool :=
  match s with [] => false | _ :: _ => true end.

Fixpoint str_eqb (a b : str) : bool :=
  match a, b with
  | [], [] => true
  | x :: a', y :: b' => (x =? y)%N && str_eqb a' b'
  | _, _ => false
  end.

(** [s.split()]: maximal runs of non-space characters, in order.  [cur] holds
    the run being read, most recent character first. *)
Fixpoint split_aux (cur : str) (s : str) : list str :=
  match s with
  | [] => match cur with [] => [] | _ :: _ => [rev cur] end
  | c :: s' =>
      if is_space c
      then match cur with
           | [] => split_aux [] s'
           | _ :: _ => rev cur :: split_aux [] s'
           end
      else split_aux (c :: cur) s'
  end.

Definition split (s : str) : list str := split_aux [] s.

(** [sep.join(parts)]. *)
Fixpoint join (sep : str) (parts : list str) : str :=
  match parts with
  | [] => []
  | [p] => p
  | p :: rest => p ++ sep ++ join sep rest
  end.

Fixpoint lstrip (s : str) : str :=
  match s with
  | [] => []
  | c :: s' => if is_space c then lstrip s' else s
  end.

Definition rstrip (s : str) : str := rev (lstrip (rev s)).

(** [s.strip()]. *)
Definition strip (s : str) : str := rstrip (lstrip s).

(** [s.lower()], as far as a comparison of its result with an ASCII literal
    can tell: the letters A to Z become a to z, the Kelvin sign becomes k
    and the dotted capital I becomes i followed by a combining dot; every
    other code point beyond ASCII is mapped by Python to code points beyond
    ASCII and is kept here as it is. *)
Definition lower_char (c : char) : str :=
  if ((65 <=? c) && (c <=? 90))%N then [(c + 32)%N]
  else if (c =? 8490)%N then [107%N]
  else if (c =? 304)%N then [105%N; 775%N]
  else [c].

Definition lower (s : str) : str := flat_map lower_char s.

(** A string without white space, and a word: such a string, not empty. *)
Definition solid (s : str) : Prop := Forall (fun c => is_space c = false) s.
Definition word (w : str) : Prop := w <> [] /\ solid w.

(** A string that does not start with white space. *)
Definition tight (s : str) : Prop :=
  match s with
  | [] => True
  | c :: _ => is_space c = false
  end.

(** A text without any word. *)
Definition wordless (s : str) : bool :=
  match split s with
  | [] => true
  | _ :: _ => false
  end.

(** A text with ink: some character that is not white space. *)
Definition ink (s : str) : bool := existsb (fun c => negb (is_space c)) s.

End PyStr.
Import PyStr.

(* ===================================================================== *)
(** * Python sequences: slices and ranges *)
(* ===================================================================== *)

Module PySeq.

Section Slice.
Context {A : Type}.

(** A slice bound as [list.__getitem__] reads it: a negative bound counts from
    the end, and both ends are clamped to the list. *)
Definition clamp (len i : Z) : Z :=
  if i <? 0 then Z.max (i + len) 0 else Z.min i len.

(** [l[start:stop]]. *)
Definition slice (l : list A) (start stop : Z) : list A :=
  let len := Z.of_nat (length l) in
  let lo := clamp len start in
  let hi := clamp len stop in
  firstn (Z.to_nat (hi - lo)) (skipn (Z.to_nat lo) l).

End Slice.

(** The values of [range(start, stop, step)] for a positive [step]; [fuel]
    bounds their number. *)
Fixpoint range_from (fuel : nat) (start stop step : Z) : list Z :=
  match fuel with
  | O => []
  | S fuel' =>
      if start <? stop
      then start :: range_from fuel' (start + step) stop step
      else []
  end.

(** [range(0, stop, step)] with [step >= 1]: at most [stop] values. *)
Definition range0 (stop step : Z) : list Z :=
  range_from (Z.to_nat stop) 0 stop step.

End PySeq.
Import PySeq.

(* ===================================================================== *)
(** * The chunker: [AdvancedRAGEngine._chunk_text] *)
(* ===================================================================== *)

Module Chunker.

(** The body of the [for start in range(0, len(words), step)] loop, with its
    [break]: [chunks] is the list built so far. *)
Fixpoint chunk_loop (words : list str) (chunk_size_words : Z)
    (starts : list Z) (chunks : list str) : list str :=
  match starts with
  | [] => chunks
  | start :: rest =>
      let end_ := start + chunk_size_words in
      let chunk := strip (join (lit " ") (slice words start end_)) in
      let chunks' := if truthy chunk then chunks ++ [chunk] else chunks in
      if end_ >=? Z.of_nat (length words)
      then chunks'
      else chunk_loop words chunk_size_words rest chunks'
  end.

Definition _chunk_text (chunk_size_words chunk_overlap_words : Z)
    (text : str) : list str :=
  let words := split text in
  match words with
  | [] => []
  | _ :: _ =>
      let step := Z.max 1 (chunk_size_words - chunk_overlap_words) in
      chunk_loop words chunk_size_words
        (range0 (Z.of_nat (length words)) step) []
  end.

(** Reading the source back from its chunks: of every chunk but the last its
    first [lead] words, of the last chunk all its words. *)
Fixpoint reassemble (lead : nat) (chunks : list str) : list str :=
  match chunks with
  | [] => []
  | [c] => split c
  | c :: rest => firstn lead (split c) ++ reassemble lead rest
  end.

(** The last word of the last chunk, and the last word of a text. *)
Definition last_word (text : str) : str := last (split text) [].
Definition final_word (chunks : list str) : str :=
  last_word (last chunks []).

End Chunker.
Import Chunker.

(* ===================================================================== *)
(** * Exceptions and results *)
(* ===================================================================== *)

(** The exceptions the engine raises itself, by class and message, and the
    ones its collaborators raise. *)
Inductive exn : Type :=
| FileNotFoundError (msg : str)
| ValueError (msg : str)
| RuntimeError (msg : str)
| UnicodeDecodeError
| AssertionError
| NotFittedError
| CollaboratorError (msg : str).

(** A call either raises or returns. *)
Definition result (A : Type) : Type := (exn + A)%type.

Definition ok {A} (a : A) : result A := inr a.

(** Whether a call returned rather than raised. *)
Definition returned {A} (r : result A) : bool :=
  match r with
  | inr _ => true
  | inl _ => false
  end.
Definition raise {A} (e : exn) : result A := inl e.

Definition bind {A B} (r : result A) (k : A -> result B) : result B :=
  match r with
  | inl e => inl e
  | inr a => k a
  end.

Declare Scope result_scope.
Delimit Scope result_scope with result.
Notation "x <- r ;; k" := (bind r (fun x => k))
  (at level 61, r at next level, right associativity) : result_scope.

(* ===================================================================== *)
(** * Reading a text file: [Path.read_text(encoding="utf-8")] *)
(* ===================================================================== *)

Module TextIO.

Local Open Scope N_scope.

Definition is_cont (b : N) : bool := (128 <=? b) && (b <=? 191).

(** The strict UTF-8 decoder: shortest forms only, no surrogates, nothing
    above U+10FFFF.  [None] stands for [UnicodeDecodeError]. *)
Fixpoint utf8_decode (bs : list N) : option str :=
  match bs with
  | [] => Some []
  | b0 :: r0 =>
      if b0 <? 128 then option_map (cons b0) (utf8_decode r0)
      else if (194 <=? b0) && (b0 <=? 223) then
        match r0 with
        | b1 :: r1 =>
            if is_cont b1
            then option_map (cons ((b0 - 192) * 64 + (b1 - 128)))
                   (utf8_decode r1)
            else None
        | _ => None
        end
      else if (224 <=? b0) && (b0 <=? 239) then
        match r0 with
        | b1 :: b2 :: r2 =>
            let cp := (b0 - 224) * 4096 + (b1 - 128) * 64 + (b2 - 128) in
            if is_cont b1 && is_cont b2 && (2048 <=? cp)
               && negb ((55296 <=? cp) && (cp <=? 57343))
            then option_map (cons cp) (utf8_decode r2)
            else None
        | _ => None
        end
      else if (240 <=? b0) && (b0 <=? 244) then
        match r0 with
        | b1 :: b2 :: b3 :: r3 =>
            let cp := (b0 - 240) * 262144 + (b1 - 128) * 4096
                      + (b2 - 128) * 64 + (b3 - 128) in
            if is_cont b1 && is_cont b2 && is_cont b3
               && (65536 <=? cp) && (cp <=? 1114111)
            then option_map (cons cp) (utf8_decode r3)
            else None
        | _ => None
        end
      else None
  end.

(** Text mode reads with universal newlines: CR LF and a lone CR both become
    LF. *)
Fixpoint universal_newlines (s : str) : str :=
  match s with
  | [] => []
  | c :: s' =>
      if c =? 13
      then 10 :: match s' with
                 | [] => []
                 | c' :: s'' =>
                     if c' =? 10 then universal_newlines s''
                     else universal_newlines s'
                 end
      else c :: universal_newlines s'
  end.

(** What the engine sees of the path it is given: the answers of [pathlib],
    of the file system and of the PDF reader for that path. *)
Record FileView : Type := {
  fv_str : str;                           (* str(path) *)
  fv_name : str;                          (* path.name *)
  fv_suffix : str;                        (* path.suffix *)
  fv_exists : bool;                       (* path.exists() *)
  fv_bytes : result (list N);             (* the bytes of the file, if it opens *)
  fv_pdf : result (list (option str))     (* per page, page.extract_text() *)
}.

(** [path.suffix.lower()]. *)
Definition fv_suffix_lower (p : FileView) : str := lower (fv_suffix p).

(** [path.read_text(encoding="utf-8")]. *)
Definition read_text (p : FileView) : result str :=
  (bs <- fv_bytes p ;;
   match utf8_decode bs with
   | None => raise UnicodeDecodeError
   | Some s => ok (universal_newlines s)
   end)%result.

End TextIO.
Import TextIO.

(* ===================================================================== *)
(** * Dense vectors and matrices *)
(* ===================================================================== *)

Module Dense.

(** A number of an embedding: float32 in the source, an exact rational
    here. *)
Definition num := Q.

Definition vector := list num.

(** A two-dimensional array: [shape = (length rows, ncols)]. *)
Record ndarray : Type := {
  ncols : nat;
  rows : list vector
}.

Definition nrows (X : ndarray) : nat := length (rows X).

(** [X.size]. *)
Definition size (X : ndarray) : nat := (nrows X * ncols X)%nat.

(** Every row has [ncols] entries. *)
Definition rectangular (X : ndarray) : Prop :=
  Forall (fun r => length r = ncols X) (rows X).

End Dense.
Import Dense.
(* ===================================================================== *)
(** * The similarity index: [faiss.IndexFlatL2] *)
(* ===================================================================== *)

Module Faiss.

Local Open Scope Q_scope.

(** Modelled from the spec: the [faiss] library is not part of the
    repository, so the exact-search index is the algorithm of section 4.4:
    plain squared Euclidean distance, results in ascending distance with ties
    broken by the lower row number, and padding when fewer than [k] rows are
    stored. *)
Record IndexFlatL2 : Type := {
  d : nat;
  xb : list vector
}.

(** [faiss.IndexFlatL2(dim)]. *)
Definition new (dim : nat) : IndexFlatL2 := {| d := dim; xb := [] |}.

Definition ntotal (ix : IndexFlatL2) : nat := length (xb ix).

(** [index.add(X)]: the rows of [X] are appended; their width must be the
    width of the index. *)
Definition add (ix : IndexFlatL2) (X : ndarray) : result IndexFlatL2 :=
  if Nat.eqb (ncols X) (d ix)
  then ok {| d := d ix; xb := xb ix ++ rows X |}
  else raise AssertionError.

(** Squared Euclidean distance. *)
Fixpoint sqdist (x y : vector) : num :=
  match x, y with
  | a :: x', b :: y' => (a - b) * (a - b) + sqdist x' y'
  | _, _ => 0
  end.

(** A candidate: its distance to the query and its row number. *)
Definition hit := (num * Z)%type.

(** [h1] ranks no later than [h2]: nearer, or as near with no higher row. *)
Definition hit_leb (h1 h2 : hit) : bool :=
  Qle_bool (fst h1) (fst h2)
  && (negb (Qle_bool (fst h2) (fst h1)) || (snd h1 <=? snd h2)%Z).

(** The same as propositions: [h1] ranks no later than [h2], and [h1]
    ranks strictly before [h2]. *)
Definition ranks_le (h1 h2 : hit) : Prop :=
  fst h1 < fst h2 \/ (fst h1 == fst h2 /\ (snd h1 <= snd h2)%Z).

Definition ranks_before (h1 h2 : hit) : Prop :=
  fst h1 < fst h2 \/ (fst h1 == fst h2 /\ (snd h1 < snd h2)%Z).

Fixpoint insert_hit (h : hit) (l : list hit) : list hit :=
  match l with
  | [] => [h]
  | h' :: l' => if hit_leb h h' then h :: l else h' :: insert_hit h l'
  end.

Fixpoint sort_hits (l : list hit) : list hit :=
  match l with
  | [] => []
  | h :: l' => insert_hit h (sort_hits l')
  end.

(** Row numbers [from], [from + 1], ... paired with the distance of each
    stored row to the query. *)
Fixpoint candidates (q : vector) (from : Z) (stored : list vector)
  : list hit :=
  match stored with
  | [] => []
  | x :: stored' => (sqdist q x, from) :: candidates q (from + 1)%Z stored'
  end.

(** What fills the result when fewer than [k] rows are stored: the largest
    float32 as distance and [-1] as row number. *)
Definition FLT_MAX : num := 340282346638528859811704183484516925440 # 1.
Definition padding : hit := (FLT_MAX, (-1)%Z).

(** The [k] best candidates, padded to [k] entries. *)
Definition top (k : nat) (sorted : list hit) : list hit :=
  firstn k sorted ++ repeat padding (k - length sorted).

(** [index.search(q, k)] for one query row: the rows [distances[0]] and
    [indices[0]] of the answer.  The query must have the width of the index
    and [k] must be positive. *)
Definition search (ix : IndexFlatL2) (q : vector) (k : Z)
  : result (list num * list Z) :=
  if negb (Nat.eqb (length q) (d ix)) then raise AssertionError
  else if (k <=? 0)%Z then raise AssertionError
  else
    let best := top (Z.to_nat k) (sort_hits (candidates q 0 (xb ix))) in
    ok (List.map fst best, List.map snd best).

End Faiss.

(* ===================================================================== *)
(** * The vector space builder: [sklearn]'s [TfidfVectorizer] *)
(* ===================================================================== *)

Module Sklearn.

(** The vectorizer object the engine holds, as an interface: its state, the
    state of a new [TfidfVectorizer(stop_words="english")], and the two
    methods the engine calls.  [fit_transform] returns the state it leaves
    behind together with the dense matrix [X.toarray()], or with the
    exception it raised; [transform] returns the one row of
    [transform([query]).toarray()]. *)
Record TfidfVectorizer : Type := {
  vec : Type;
  vec_new : vec;
  fit_transform : vec -> list str -> vec * result ndarray;
  transform : vec -> str -> result vector
}.

(** What the engine relies on: a successful fit returns one row per document,
    all of the width of the fitted vocabulary, and leaves a vectorizer that
    projects every query to that width. *)
Record fits (V : TfidfVectorizer) : Prop := {
  fit_rows : forall v docs v' X,
    fit_transform V v docs = (v', inr X) -> nrows X = length docs;
  fit_rectangular : forall v docs v' X,
    fit_transform V v docs = (v', inr X) -> rectangular X;
  fit_projects : forall v docs v' X,
    fit_transform V v docs = (v', inr X) ->
    forall q, exists r, transform V v' q = inr r /\ length r = ncols X
}.

End Sklearn.
Import Sklearn.
(* ===================================================================== *)
(** * The engine: [AdvancedRAGEngine] *)
(* ===================================================================== *)

(** [RetrievalResult]. *)
Record RetrievalResult : Type := {
  chunk : str;
  score : num
}.

(** One request to the generation collaborator:
    [client.chat.completions.create(model, messages, temperature)]; a message
    is a role and a content. *)
Record GenRequest : Type := {
  req_model : str;
  req_messages : list (str * str);
  req_temperature : num
}.

Module Engine.

Section WithVectorizer.

Variable V : TfidfVectorizer.

(** The fields of [self]. *)
Record Engine : Type := {
  model_name : str;
  chunk_size_words : Z;
  chunk_overlap_words : Z;
  groq_api_key : str;
  vectorizer : vec V;
  index : option Faiss.IndexFlatL2;
  chunks : list str;
  embeddings : option ndarray;
  source_name : option str
}.

(** A method that assigns fields: the engine it leaves and what it returns or
    raises. *)
Definition method (A : Type) : Type := Engine -> Engine * result A.

Definition set_source_name (s : str) (self : Engine) : Engine :=
  {| model_name := model_name self;
     chunk_size_words := chunk_size_words self;
     chunk_overlap_words := chunk_overlap_words self;
     groq_api_key := groq_api_key self;
     vectorizer := vectorizer self;
     index := index self;
     chunks := chunks self;
     embeddings := embeddings self;
     source_name := Some s |}.

Definition set_chunks (cs : list str) (self : Engine) : Engine :=
  {| model_name := model_name self;
     chunk_size_words := chunk_size_words self;
     chunk_overlap_words := chunk_overlap_words self;
     groq_api_key := groq_api_key self;
     vectorizer := vectorizer self;
     index := index self;
     chunks := cs;
     embeddings := embeddings self;
     source_name := source_name self |}.

Definition set_vectorizer (v : vec V) (self : Engine) : Engine :=
  {| model_name := model_name self;
     chunk_size_words := chunk_size_words self;
     chunk_overlap_words := chunk_overlap_words self;
     groq_api_key := groq_api_key self;
     vectorizer := v;
     index := index self;
     chunks := chunks self;
     embeddings := embeddings self;
     source_name := source_name self |}.

Definition set_index (ix : Faiss.IndexFlatL2) (self : Engine) : Engine :=
  {| model_name := model_name self;
     chunk_size_words := chunk_size_words self;
     chunk_overlap_words := chunk_overlap_words self;
     groq_api_key := groq_api_key self;
     vectorizer := vectorizer self;
     index := Some ix;
     chunks := chunks self;
     embeddings := embeddings self;
     source_name := source_name self |}.

Definition set_embeddings (X : ndarray) (self : Engine) : Engine :=
  {| model_name := model_name self;
     chunk_size_words := chunk_size_words self;
     chunk_overlap_words := chunk_overlap_words self;
     groq_api_key := groq_api_key self;
     vectorizer := vectorizer self;
     index := index self;
     chunks := chunks self;
     embeddings := Some X;
     source_name := source_name self |}.

(** [x or y] on optional strings: [x] when it is a non-empty string. *)
Definition or_else (x y : option str) : option str :=
  match x with
  | Some (_ :: _) => x
  | _ => y
  end.

(** [__init__]; [env_key] is [os.getenv("GROQ_API_KEY")]. *)
Definition __init__ (key env_key : option str) (model : str)
    (size overlap : Z) : result Engine :=
  match or_else key env_key with
  | Some (c :: k) =>
      ok {| model_name := model;
            chunk_size_words := size;
            chunk_overlap_words := overlap;
            groq_api_key := c :: k;
            vectorizer := vec_new V;
            index := None;
            chunks := [];
            embeddings := None;
            source_name := None |}
  | _ =>
      raise (ValueError
        (lit "Missing GROQ_API_KEY. Set it in environment or pass explicitly."))
  end.

(** [_chunk_text], with the sizes of [self]. *)
Definition _chunk_text (self : Engine) (text : str) : list str :=
  Chunker._chunk_text (chunk_size_words self) (chunk_overlap_words self) text.

(** [_build_index]. *)
Definition _build_index (cs : list str) : method unit :=
  fun self =>
    let (v, fitted) := fit_transform V (vectorizer self) cs in
    let self := set_vectorizer v self in
    match fitted with
    | inl e => (self, raise e)
    | inr embeddings_ =>
        if Nat.eqb (size embeddings_) 0
        then (self,
              raise (ValueError
                       (lit "Failed to create embeddings from chunks.")))
        else
          let dim := ncols embeddings_ in
          match Faiss.add (Faiss.new dim) embeddings_ with
          | inl e => (set_index (Faiss.new dim) self, raise e)
          | inr ix =>
              (set_embeddings embeddings_ (set_index ix self), ok tt)
          end
    end.

Definition nl : str := [10%N].

(** [_extract_text_from_pdf], on the pages the PDF reader yields. *)
Definition _extract_text_from_pdf (pages : list (option str)) : str :=
  let text_parts :=
    flat_map (fun page_text =>
                match page_text with
                | Some (c :: t) => [c :: t]
                | _ => []
                end) pages in
  join nl text_parts.

(** [not text or not text.strip()]. *)
Definition blank (text : str) : bool :=
  negb (truthy text) || negb (truthy (strip text)).

(** [ingest_file]. *)
Definition ingest_file (path : FileView) : method Z :=
  fun self =>
    if negb (fv_exists path)
    then (self,
          raise (FileNotFoundError (lit "File not found: " ++ fv_str path)))
    else
      let suffix := fv_suffix_lower path in
      let extracted :=
        if str_eqb suffix (lit ".txt") then read_text path
        else if str_eqb suffix (lit ".pdf")
             then (pages <- fv_pdf path ;;
                   ok (_extract_text_from_pdf pages))%result
             else raise (ValueError
                           (lit "Unsupported file type. Use .txt or .pdf")) in
      match extracted with
      | inl e => (self, raise e)
      | inr text =>
          if blank text
          then (self,
                raise (ValueError
                         (lit "No text could be extracted from the file.")))
          else
            let self := set_source_name (fv_name path) self in
            let self := set_chunks (_chunk_text self text) self in
            let (self, built) := _build_index (chunks self) self in
            match built with
            | inl e => (self, raise e)
            | inr _ => (self, ok (Z.of_nat (length (chunks self))))
            end
      end.

(** [ingest_text]. *)
Definition ingest_text (text source : str) : method Z :=
  fun self =>
    if blank text
    then (self, raise (ValueError (lit "Input text is empty.")))
    else
      let self := set_source_name source self in
      let self := set_chunks (_chunk_text self text) self in
      let (self, built) := _build_index (chunks self) self in
      match built with
      | inl e => (self, raise e)
      | inr _ => (self, ok (Z.of_nat (length (chunks self))))
      end.

(** What the lines shared by both ingestion methods leave behind, written
    out: the source name and the chunks are replaced first; the vectorizer
    is replaced by the fit; index and embeddings only when the matrix is
    not empty. *)
Definition rebuilt (name text : str) (self : Engine) : Engine * result Z :=
  let cs := _chunk_text self text in
  let named := set_chunks cs (set_source_name name self) in
  let (v, fitted) := fit_transform V (vectorizer self) cs in
  match fitted with
  | inl e => (set_vectorizer v named, raise e)
  | inr X =>
      if Nat.eqb (size X) 0
      then (set_vectorizer v named,
            raise (ValueError
                     (lit "Failed to create embeddings from chunks.")))
      else (set_embeddings X
              (set_index {| Faiss.d := ncols X; Faiss.xb := rows X |}
                 (set_vectorizer v named)),
            ok (Z.of_nat (length cs)))
  end.

(** The loop of [retrieve] over [zip(distances[0], indices[0])]. *)
Fixpoint collect (cs : list str) (pairs : list (num * Z))
    (results : list RetrievalResult) : list RetrievalResult :=
  match pairs with
  | [] => results
  | (dist, idx) :: rest =>
      if (idx <? 0) || (idx >=? Z.of_nat (length cs))
      then collect cs rest results
      else collect cs rest
             (results ++ [{| chunk := nth (Z.to_nat idx) cs [];
                             score := dist |}])
  end.

(** The test of that loop on one pair, and the result it appends. *)
Definition valid (cs : list str) (h : Faiss.hit) : bool :=
  negb ((snd h <? 0) || (snd h >=? Z.of_nat (length cs))).

Definition to_result (cs : list str) (h : Faiss.hit) : RetrievalResult :=
  {| chunk := nth (Z.to_nat (snd h)) cs []; score := fst h |}.

(** [retrieve]; it assigns no field. *)
Definition retrieve (self : Engine) (query : str) (top_k : Z)
  : result (list RetrievalResult) :=
  match index self, chunks self with
  | Some ix, _ :: _ =>
      (q_vec <- transform V (vectorizer self) query ;;
       found <- Faiss.search ix q_vec top_k ;;
       ok (collect (chunks self) (combine (fst found) (snd found)) []))%result
  | _, _ =>
      raise (RuntimeError
               (lit "No knowledge base loaded. Ingest a file first."))
  end.

(** The prompt of [answer]. *)
Definition prompt (context query : str) : str :=
  lit "You are a helpful assistant. "
  ++ lit "Answer using only the provided context. "
  ++ lit "If the context is insufficient, say exactly: 'I don't know based on the provided context.'"
  ++ nl ++ nl
  ++ lit "Context:" ++ nl ++ context ++ nl ++ nl
  ++ lit "Question: " ++ query ++ nl ++ nl
  ++ lit "Answer:".

(** The generation collaborator: the content of the first choice of the
    completion, or the exception of the call. *)
Variable generate : GenRequest -> result str.

(** [answer]: what it returns or raises, and the requests it sent to the
    generation collaborator, in order. *)
Definition answer (self : Engine) (query : str) (top_k : Z)
    (temperature : num)
  : result (str * list RetrievalResult) * list GenRequest :=
  match retrieve self query top_k with
  | inl e => (raise e, [])
  | inr [] => (ok (lit "I could not retrieve relevant context.", []), [])
  | inr ((_ :: _) as docs) =>
      let context := join (nl ++ nl) (List.map chunk docs) in
      let request :=
        {| req_model := model_name self;
           req_messages := [(lit "user", prompt context query)];
           req_temperature := temperature |} in
      match generate request with
      | inl e => (raise e, [request])
      | inr content => (ok (strip content, docs), [request])
      end
  end.

(** A call of one of the four public methods. *)
Inductive call : Type :=
| IngestFile (path : FileView)
| IngestText (text source : str)
| Retrieve (query : str) (top_k : Z)
| Answer (query : str) (top_k : Z) (temperature : num).

(** The engine a call leaves behind, and whether it returned ([true]) or
    raised ([false]).  [retrieve] and [answer] assign no field. *)
Definition after (c : call) (self : Engine) : Engine * bool :=
  match c with
  | IngestFile path =>
      let (self', r) := ingest_file path self in
      (self', returned r)
  | IngestText text source =>
      let (self', r) := ingest_text text source self in
      (self', returned r)
  | Retrieve query top_k =>
      (self, returned (retrieve self query top_k))
  | Answer query top_k temperature =>
      (self, returned (fst (answer self query top_k temperature)))
  end.

(** Rows held by the index of the engine; none when there is no index. *)
Definition index_rows (self : Engine) : nat :=
  match index self with
  | Some ix => Faiss.ntotal ix
  | None => 0
  end.

(** The invariant of the similarity index: one row per stored chunk. *)
Definition consistent (self : Engine) : Prop :=
  index_rows self = length (chunks self).

(** A loaded knowledge base: chunks, an index with one row per chunk, and a
    vectorizer that projects every query to the width of that index. *)
Record knowledge_base (self : Engine) (ix : Faiss.IndexFlatL2) : Prop := {
  kb_index : index self = Some ix;
  kb_chunks : chunks self <> [];
  kb_rows : Faiss.ntotal ix = length (chunks self);
  kb_width : Forall (fun x => length x = Faiss.d ix) (Faiss.xb ix);
  kb_projects : forall q, exists r,
      transform V (vectorizer self) q = inr r /\ length r = Faiss.d ix
}.

(** An engine on which no ingest has succeeded: a new one, or one left by an
    ingest that raised on such an engine. *)
Inductive never_loaded : Engine -> Prop :=
| nl_new : forall key env_key model size overlap self,
    __init__ key env_key model size overlap = inr self ->
    never_loaded self
| nl_file : forall self path self' e,
    never_loaded self ->
    ingest_file path self = (self', inl e) ->
    never_loaded self'
| nl_text : forall self text source self' e,
    never_loaded self ->
    ingest_text text source self = (self', inl e) ->
    never_loaded self'.

End WithVectorizer.

End Engine.

(* ===================================================================== *)
(** * A deterministic stub of the collaborators *)
(* ===================================================================== *)

Module Stub.

Definition stop_words : list str := [lit "the"; lit "of"; lit "and"].

Definition mem (w : str) (l : list str) : bool := existsb (str_eqb w) l.

(** The words of a document that are not stop words. *)
Definition tokens (doc : str) : list str :=
  filter (fun w => negb (mem w stop_words)) (split doc).

Fixpoint distinct (seen ws : list str) : list str :=
  match ws with
  | [] => []
  | w :: ws' =>
      if mem w seen then distinct seen ws' else w :: distinct (w :: seen) ws'
  end.

Definition vocabulary (docs : list str) : list str :=
  distinct [] (flat_map tokens docs).

Definition occurrences (w : str) (ws : list str) : num :=
  inject_Z (Z.of_nat (length (filter (str_eqb w) ws))).

(** Term counts of a document over a vocabulary. *)
Definition counts (vocab : list str) (doc : str) : vector :=
  List.map (fun w => occurrences w (tokens doc)) vocab.

(** A vectorizer of plain term counts; its state is the fitted vocabulary.
    Like the real one it refuses an empty vocabulary. *)
Definition count_vectorizer : TfidfVectorizer :=
  {| vec := option (list str);
     vec_new := None;
     fit_transform := fun v docs =>
       match vocabulary docs with
       | [] =>
           (v, raise (ValueError
                 (lit "empty vocabulary; perhaps the documents only contain stop words")))
       | (_ :: _) as vocab =>
           (Some vocab,
            ok {| ncols := length vocab;
                  rows := List.map (counts vocab) docs |})
       end;
     transform := fun v q =>
       match v with
       | None => raise NotFittedError
       | Some vocab => ok (counts vocab q)
       end |}.

(** A vectorizer of term counts that fits any documents, also to an empty
    vocabulary. *)
Definition lenient_vectorizer : TfidfVectorizer :=
  {| vec := option (list str);
     vec_new := None;
     fit_transform := fun _ docs =>
       let vocab := vocabulary docs in
       (Some vocab,
        ok {| ncols := length vocab;
              rows := List.map (counts vocab) docs |});
     transform := fun v q =>
       match v with
       | None => raise NotFittedError
       | Some vocab => ok (counts vocab q)
       end |}.

(** A generation collaborator that always gives the same completion. *)
Definition generate (_ : GenRequest) : result str := ok (lit " done ").

(** A new engine over a vectorizer, with the given chunk sizes. *)
Definition engine (V : TfidfVectorizer) (size overlap : Z)
  : Engine.Engine V :=
  {| Engine.model_name := lit "llama-3.1-8b-instant";
     Engine.chunk_size_words := size;
     Engine.chunk_overlap_words := overlap;
     Engine.groq_api_key := lit "key";
     Engine.vectorizer := vec_new V;
     Engine.index := None;
     Engine.chunks := [];
     Engine.embeddings := None;
     Engine.source_name := None |}.

(** A text file with the given name and bytes. *)
Definition txt (name : str) (bytes : list N) : FileView :=
  {| fv_str := name;
     fv_name := name;
     fv_suffix := lit ".txt";
     fv_exists := true;
     fv_bytes := ok bytes;
     fv_pdf := raise (CollaboratorError (lit "not a PDF")) |}.

End Stub.

(* ===================================================================== *)
(** * The windows of the chunker, in closed form *)
(* ===================================================================== *)

Module Windowing.

(** The [k]-th window of [size] words, windows starting every [step] words,
    joined as the chunker joins it. *)
Definition window (words : list str) (size step k : nat) : str :=
  join (lit " ") (firstn size (skipn (k * step) words)).

(** One window, and one more for every [step] words, or part of [step]
    words, beyond the first [size] of [n] words. *)
Definition chunk_count (n size step : nat) : nat :=
  S ((n - size + (step - 1)) / step).

Definition windows (words : list str) (size step : nat) : list str :=
  List.map (window words size step)
    (seq 0 (chunk_count (length words) size step)).

(** The words of a page of a PDF: none when the page has no text. *)
Definition page_words (page_text : option str) : list str :=
  match page_text with
  | Some t => split t
  | None => []
  end.

End Windowing.

(* ===================================================================== *)
(** * The application: the handlers of [app.py] *)
(* ===================================================================== *)

Module App.

Section WithCollaborators.

Variable V : TfidfVectorizer.

(** The generation collaborator, [os.getenv("GROQ_API_KEY")], and the text
    [str(exc)] of an exception. *)
Variable generate : GenRequest -> result str.
Variable env_key : option str.
Variable exn_text : exn -> str.

(** An entry of [st.session_state.messages]; [context] is absent from the
    messages of the user and from error messages. *)
Record Message : Type := {
  role : str;
  content : str;
  context : option (list RetrievalResult)
}.

(** [st.session_state]. *)
Record Session : Type := {
  engine : option (Engine.Engine V);
  messages : list Message;
  kb_loaded : bool
}.

(** The session of a first run of the script. *)
Definition new_session : Session :=
  {| engine := None; messages := []; kb_loaded := false |}.

(** An uploaded file, as the temporary file it is written to: the name and
    path of that file, the suffix it takes from the uploaded name
    ([Path(uploaded_file.name).suffix]), the uploaded bytes, and what the
    PDF reader yields for them. *)
Record Upload : Type := {
  tmp_path : str;
  tmp_name : str;
  suffix : str;
  buffer : list N;
  pdf_pages : result (list (option str))
}.

Definition tmp_file (up : Upload) : FileView :=
  {| fv_str := tmp_path up;
     fv_name := tmp_name up;
     fv_suffix := suffix up;
     fv_exists := true;
     fv_bytes := ok (buffer up);
     fv_pdf := pdf_pages up |}.

(** The values of the widgets in one run of the script. *)
Record Widgets : Type := {
  api_key : str;
  uploaded_file : option Upload;
  chunk_size : Z;
  chunk_overlap : Z;
  build_index : bool;
  top_k : Z;
  question : option str
}.

(** The body of [if st.button("Build Index")]: the session it leaves. *)
Definition build (w : Widgets) (ss : Session) : Session :=
  if negb (truthy (api_key w)) then ss
  else
    match uploaded_file w with
    | None => ss
    | Some up =>
        match Engine.__init__ V (Some (api_key w)) env_key
                (lit "llama-3.1-8b-instant")
                (chunk_size w) (chunk_overlap w) with
        | inl _ => ss
        | inr new =>
            match Engine.ingest_file (tmp_file up) new with
            | (_, inl _) => ss
            | (loaded, inr _) =>
                {| engine := Some loaded;
                   messages := [];
                   kb_loaded := true |}
            end
        end
    end.

Definition append (m : Message) (ss : Session) : Session :=
  {| engine := engine ss;
     messages := messages ss ++ [m];
     kb_loaded := kb_loaded ss |}.

(** The body of [if question]: the session it leaves and the requests it
    sent to the generation collaborator. *)
Definition chat (q : str) (k : Z) (ss : Session)
  : Session * list GenRequest :=
  let ss :=
    append {| role := lit "user"; content := q; context := None |} ss in
  match kb_loaded ss, engine ss with
  | true, Some e =>
      match Engine.answer generate e q k 0%Q with
      | (inr (answer, docs), sent) =>
          (append {| role := lit "assistant";
                     content := answer;
                     context := Some docs |} ss,
           sent)
      | (inl exc, sent) =>
          (append {| role := lit "assistant";
                     content := lit "Error while answering: "
                                ++ exn_text exc;
                     context := None |} ss,
           sent)
      end
  | _, _ =>
      (append {| role := lit "assistant";
                 content :=
                   lit "Please build the index first from the setup panel.";
                 context := None |} ss,
       [])
  end.

(** One run of the script: the build handler when the button was pressed,
    then the chat handler when a question was entered. *)
Definition run (w : Widgets) (ss : Session) : Session * list GenRequest :=
  let ss := if build_index w then build w ss else ss in
  match question w with
  | Some (c :: q) => chat (c :: q) (top_k w) ss
  | _ => (ss, [])
  end.

(** The session after a sequence of runs. *)
Fixpoint runs (ws : list Widgets) (ss : Session) : Session :=
  match ws with
  | [] => ss
  | w :: ws' => runs ws' (fst (run w ss))
  end.

(** A session whose flag and engine agree, its engine a knowledge base. *)
Definition sound (ss : Session) : Prop :=
  match engine ss with
  | None => kb_loaded ss = false
  | Some e => kb_loaded ss = true /\ exists ix, Engine.knowledge_base e ix
  end.

End WithCollaborators.

End App.

(* ===================================================================== *)
(** * Words: what [split] returns and what [join] gives back *)
(* ===================================================================== *)

Section Words.

Lemma solid_rev : forall s, solid s -> solid (rev s).
Proof.
  intros s H. apply Forall_forall. intros c Hc.
  apply in_rev in Hc. exact (proj1 (Forall_forall _ _) H c Hc).
Qed.

Lemma split_aux_words : forall s cur,
  solid cur -> Forall word (split_aux cur s).
Proof.
  induction s as [|c s IH]; intros cur Hcur; simpl.
  - destruct cur as [|x cur]; constructor; [|constructor].
    split; [|apply solid_rev; exact Hcur].
    intro E. apply (f_equal (@length _)) in E.
    rewrite length_rev in E. discriminate.
  - destruct (is_space c) eqn:Hc.
    + destruct cur as [|x cur].
      * apply IH. constructor.
      * constructor; [|apply IH; constructor].
        split; [|apply solid_rev; exact Hcur].
        intro E. apply (f_equal (@length _)) in E.
        rewrite length_rev in E. discriminate.
    + apply IH. constructor; assumption.
Qed.

Lemma split_words : forall s, Forall word (split s).
Proof. intro s. apply split_aux_words. constructor. Qed.

(** Reading a run of non-space characters only grows the current word. *)
Lemma split_aux_solid : forall w cur rest,
  solid w -> split_aux cur (w ++ rest) = split_aux (rev w ++ cur) rest.
Proof.
  induction w as [|c w IH]; intros cur rest Hw; simpl; [reflexivity|].
  inversion Hw as [|? ? Hc Hw']; subst. rewrite Hc.
  rewrite IH by assumption. rewrite <- app_assoc. reflexivity.
Qed.

Lemma space_is_space : is_space 32%N = true.
Proof. reflexivity. Qed.

Lemma split_join : forall ws,
  Forall word ws -> split (join (lit " ") ws) = ws.
Proof.
  unfold split. induction ws as [|w ws IH]; intros H; [reflexivity|].
  inversion H as [|? ? [Hne Hw] Hws]; subst.
  destruct ws as [|w2 ws].
  - simpl. rewrite <- (app_nil_r w) at 1.
    rewrite split_aux_solid by assumption. simpl. rewrite app_nil_r.
    destruct (rev w) eqn:E.
    + apply (f_equal (@rev _)) in E. rewrite rev_involutive in E.
      simpl in E. contradiction.
    + rewrite <- E. rewrite rev_involutive. reflexivity.
  - change (join (lit " ") (w :: w2 :: ws))
      with (w ++ 32%N :: join (lit " ") (w2 :: ws)).
    rewrite split_aux_solid by assumption. rewrite app_nil_r.
    simpl split_aux at 1. 
    destruct (rev w) eqn:E.
    + apply (f_equal (@rev _)) in E. rewrite rev_involutive in E.
      simpl in E. contradiction.
    + rewrite <- E. rewrite rev_involutive. f_equal. apply IH. assumption.
Qed.

Lemma lstrip_tight : forall s, tight s -> lstrip s = s.
Proof. intros [|c s] H; simpl in *; [reflexivity|]. rewrite H. reflexivity. Qed.

Lemma tight_app : forall a b, a <> [] -> tight a -> tight (a ++ b).
Proof. intros [|c a] b Hne H; [contradiction|exact H]. Qed.

Lemma word_tight : forall w, word w -> tight w.
Proof.
  intros [|c w] [_ H]; simpl; [exact I|]. inversion H; assumption.
Qed.

Lemma word_rev : forall w, word w -> word (rev w).
Proof.
  intros w [Hne H]. split; [|apply solid_rev; assumption].
  intro E. apply (f_equal (@rev _)) in E. rewrite rev_involutive in E.
  contradiction.
Qed.

Lemma join_cons2 : forall sep p q rest,
  join sep (p :: q :: rest) = p ++ sep ++ join sep (q :: rest).
Proof. reflexivity. Qed.

Lemma join_nonempty : forall sep ws,
  ws <> [] -> Forall word ws -> join sep ws <> [].
Proof.
  intros sep [|w ws] Hne H; [contradiction|].
  inversion H as [|? ? [Hw _] _]; subst.
  destruct ws; simpl; [assumption|].
  destruct w; [contradiction|discriminate].
Qed.

Lemma join_tight : forall sep ws, Forall word ws -> tight (join sep ws).
Proof.
  intros sep [|w ws] H; [exact I|].
  inversion H as [|? ? Hw _]; subst.
  destruct ws as [|w2 ws]; [apply word_tight; assumption|].
  rewrite join_cons2. apply tight_app; [apply Hw|apply word_tight; assumption].
Qed.

Lemma join_rev_tight : forall sep ws,
  Forall word ws -> tight (rev (join sep ws)).
Proof.
  intros sep. induction ws as [|w ws IH]; intros H; [exact I|].
  inversion H as [|? ? Hw Hws]; subst.
  destruct ws as [|w2 ws].
  - simpl. apply word_tight, word_rev. assumption.
  - rewrite join_cons2. rewrite !rev_app_distr. rewrite <- app_assoc.
    apply tight_app; [|apply IH; assumption].
    intro E. apply (f_equal (@rev _)) in E. rewrite rev_involutive in E.
    refine (@join_nonempty sep (w2 :: ws) _ Hws E). discriminate.
Qed.

Lemma strip_join : forall ws,
  Forall word ws -> strip (join (lit " ") ws) = join (lit " ") ws.
Proof.
  intros ws H. unfold strip, rstrip.
  rewrite (@lstrip_tight _ (join_tight (lit " ") H)).
  rewrite (@lstrip_tight _ (join_rev_tight (lit " ") H)).
  apply rev_involutive.
Qed.

Lemma truthy_nonempty : forall s, s <> [] -> truthy s = true.
Proof. intros [|c s] H; [contradiction|reflexivity]. Qed.

End Words.
(* ===================================================================== *)
(** * The chunker *)
(* ===================================================================== *)

Section ChunkerFacts.

Lemma slice_window : forall (A : Type) (l : list A) (start size : nat),
  slice l (Z.of_nat start) (Z.of_nat start + Z.of_nat size)
  = firstn size (skipn start l).
Proof.
  intros A l start size. unfold slice, clamp.
  destruct (Z.ltb_spec (Z.of_nat start) 0); [lia|].
  destruct (Z.ltb_spec (Z.of_nat start + Z.of_nat size) 0); [lia|].
  destruct (Nat.le_gt_cases (length l) start) as [Hout|Hin].
  - rewrite (skipn_all2 l) by lia.
    rewrite skipn_all2 by lia. rewrite !firstn_nil. reflexivity.
  - replace (Z.to_nat (Z.min (Z.of_nat start) (Z.of_nat (length l))))
      with start by lia.
    destruct (Nat.le_gt_cases (start + size) (length l)).
    + f_equal. lia.
    + rewrite !firstn_all2; [reflexivity| |]; rewrite length_skipn; lia.
Qed.

Lemma chunk_loop_acc : forall words size starts acc,
  chunk_loop words size starts acc
  = acc ++ chunk_loop words size starts [].
Proof.
  intros words size. induction starts as [|s starts IH]; intros acc; simpl.
  - rewrite app_nil_r. reflexivity.
  - destruct (truthy _); destruct (_ >=? _); simpl;
      try rewrite app_nil_r; try reflexivity.
    + rewrite IH. rewrite (IH [_]). rewrite <- app_assoc. reflexivity.
    + apply IH.
Qed.

Lemma last_skipn : forall (A : Type) (l : list A) (n : nat) (dflt : A),
  (n < length l)%nat -> last (skipn n l) dflt = last l dflt.
Proof.
  intros A l n dflt H.
  revert n H. induction l as [|a l IH]; intros n H; simpl in H; [lia|].
  destruct n as [|n]; [reflexivity|].
  cbn [skipn]. rewrite IH by lia.
  destruct l; [simpl in H; lia|reflexivity].
Qed.

Lemma Forall_window : forall (A : Type) (P : A -> Prop) l n m,
  Forall P l -> Forall P (firstn n (skipn m l)).
Proof.
  intros A P l n m H.
  assert (Hskip : Forall P (skipn m l)).
  { revert m. induction H; intros [|m]; simpl; auto. }
  revert n. induction Hskip; intros [|n]; simpl; auto.
Qed.

Lemma reassemble_cons : forall lead c rest,
  rest <> [] ->
  reassemble lead (c :: rest) = firstn lead (split c) ++ reassemble lead rest.
Proof. intros lead c [|c' rest] H; [contradiction|reflexivity]. Qed.

Lemma last_cons : forall (A : Type) (c : A) rest dflt,
  rest <> [] -> last (c :: rest) dflt = last rest dflt.
Proof. intros A c [|c' rest] dflt H; [contradiction|reflexivity]. Qed.

Variable words : list str.
Hypothesis Hwords : Forall word words.

Variables size step : nat.
Hypothesis Hstep : (0 < step <= size)%nat.

(** The loop started at word [s], with enough fuel to reach the end. *)
Lemma chunk_loop_from : forall fuel s,
  (s < length words)%nat ->
  (length words - s <= fuel)%nat ->
  let cs := chunk_loop words (Z.of_nat size)
              (range_from fuel (Z.of_nat s) (Z.of_nat (length words))
                 (Z.of_nat step)) [] in
  cs <> []
  /\ reassemble step cs = skipn s words
  /\ final_word cs = last words [].
Proof.
  induction fuel as [|fuel IH]; intros s Hs Hfuel; [lia|].
  cbv zeta. cbn [range_from].
  destruct (Z.ltb_spec (Z.of_nat s) (Z.of_nat (length words))); [|lia].
  cbn [chunk_loop]. cbv zeta.
  rewrite slice_window.
  set (window := firstn size (skipn s words)).
  assert (Hwin : Forall word window) by (apply Forall_window; exact Hwords).
  assert (Hne : window <> []).
  { intro E. apply (f_equal (@length _)) in E. unfold window in E.
    rewrite length_firstn, length_skipn in E. simpl in E. lia. }
  rewrite (strip_join Hwin).
  rewrite (truthy_nonempty (join_nonempty (lit " ") Hne Hwin)).
  destruct (Z.geb_spec (Z.of_nat s + Z.of_nat size)
              (Z.of_nat (length words))) as [Hend|Hmore].
  - assert (Hall : window = skipn s words).
    { unfold window. apply firstn_all2. rewrite length_skipn. lia. }
    split; [discriminate|]. split.
    + cbn [app reassemble]. rewrite (split_join Hwin). exact Hall.
    + unfold final_word, last_word. cbn [app last].
      rewrite (split_join Hwin). rewrite Hall. apply last_skipn. exact Hs.
  - rewrite chunk_loop_acc.
    replace (Z.of_nat s + Z.of_nat step) with (Z.of_nat (s + step)) by lia.
    destruct (IH (s + step)%nat) as (Hcs & Hre & Hlast); [lia|lia|].
    cbv zeta in Hcs, Hre, Hlast.
    set (cs := chunk_loop _ _ _ []) in *.
    split; [destruct cs; discriminate|]. split.
    + cbn [app]. rewrite (reassemble_cons _ _ Hcs).
      rewrite (split_join Hwin). rewrite Hre. unfold window.
      rewrite firstn_firstn. replace (Nat.min step size) with step by lia.
      rewrite <- (firstn_skipn step (skipn s words)) at 2.
      rewrite skipn_skipn. rewrite (Nat.add_comm step s). reflexivity.
    + unfold final_word in *. cbn [app]. rewrite (last_cons _ _ Hcs).
      exact Hlast.
Qed.

End ChunkerFacts.
(* ===================================================================== *)
(** * Blank texts and universal newlines *)
(* ===================================================================== *)

Section Texts.

Lemma str_eqb_eq : forall a b, str_eqb a b = true <-> a = b.
Proof.
  induction a as [|x a IH]; intros [|y b]; simpl; split; intro H;
    try reflexivity; try discriminate.
  - apply andb_true_iff in H. destruct H as [Hx Hab].
    apply N.eqb_eq in Hx. apply IH in Hab. subst. reflexivity.
  - injection H as -> ->. rewrite N.eqb_refl. simpl.
    apply IH. reflexivity.
Qed.

Lemma str_eqb_neq : forall a b, a <> b -> str_eqb a b = false.
Proof.
  intros a b H. destruct (str_eqb a b) eqn:E; [|reflexivity].
  apply str_eqb_eq in E. contradiction.
Qed.

Lemma split_aux_pending : forall s c cur, split_aux (c :: cur) s <> [].
Proof.
  induction s as [|x s IH]; intros c cur; simpl; [discriminate|].
  destruct (is_space x); [discriminate|apply IH].
Qed.

Lemma lstrip_spaces : forall s, Forall (fun c => is_space c = true) s ->
  lstrip s = [].
Proof.
  induction s as [|c s IH]; intros H; [reflexivity|].
  inversion H as [|? ? Hc Hs]; subst. simpl. rewrite Hc. apply IH, Hs.
Qed.

Lemma split_lstrip : forall s, split (lstrip s) = split s.
Proof.
  unfold split. induction s as [|c s IH]; [reflexivity|].
  simpl. destruct (is_space c) eqn:Hc; [exact IH|].
  simpl. rewrite Hc. reflexivity.
Qed.

Lemma lstrip_wordless : forall s, truthy (lstrip s) = negb (wordless s).
Proof.
  unfold wordless, split. induction s as [|c s IH]; [reflexivity|].
  simpl. destruct (is_space c) eqn:Hc; [exact IH|].
  simpl. destruct (split_aux [c] s) eqn:E; [|reflexivity].
  exfalso. revert E. apply split_aux_pending.
Qed.

Lemma truthy_rev : forall s, truthy (rev s) = truthy s.
Proof.
  intros [|c s]; [reflexivity|]. simpl.
  destruct (rev s ++ [c]) eqn:E; [|reflexivity].
  apply app_eq_nil in E. destruct E; discriminate.
Qed.

Lemma lstrip_ink : forall s, truthy (lstrip s) = ink s.
Proof.
  induction s as [|c s IH]; [reflexivity|].
  simpl. destruct (is_space c); [exact IH|reflexivity].
Qed.

Lemma ink_lstrip : forall s, ink (lstrip s) = ink s.
Proof.
  induction s as [|c s IH]; [reflexivity|].
  simpl. destruct (is_space c) eqn:Hc; [exact IH|].
  simpl. rewrite Hc. reflexivity.
Qed.

Lemma ink_rev : forall s, ink (rev s) = ink s.
Proof.
  intro s. unfold ink. apply eq_true_iff_eq.
  rewrite !existsb_exists. split; intros (c & Hin & Hc); exists c;
    (split; [|exact Hc]); [apply in_rev|apply in_rev in Hin]; assumption.
Qed.

Lemma strip_ink : forall s, truthy (strip s) = ink s.
Proof.
  intro s. unfold strip, rstrip.
  rewrite truthy_rev, lstrip_ink, ink_rev, ink_lstrip. reflexivity.
Qed.

Lemma ink_wordless : forall s, ink s = negb (wordless s).
Proof. intro s. rewrite <- lstrip_ink. apply lstrip_wordless. Qed.

(** The test of both ingestion methods is: the text has no word. *)
Lemma blank_wordless : forall s, Engine.blank s = wordless s.
Proof.
  intros s. unfold Engine.blank. rewrite strip_ink, ink_wordless.
  rewrite negb_involutive.
  destruct s; [reflexivity|]. simpl. reflexivity.
Qed.

Lemma split_aux_newlines : forall n s cur,
  (length s <= n)%nat ->
  split_aux cur (universal_newlines s) = split_aux cur s.
Proof.
  induction n as [|n IH]; intros s cur Hn.
  - destruct s; [reflexivity|simpl in Hn; lia].
  - destruct s as [|c s]; [reflexivity|]. simpl in Hn.
    cbn [universal_newlines].
    destruct (N.eqb_spec c 13) as [->|Hc].
    + assert (H13 : is_space 13%N = true) by reflexivity.
      assert (H10 : is_space 10%N = true) by reflexivity.
      destruct s as [|c' s''].
      * simpl. destruct cur; reflexivity.
      * simpl in Hn. cbn [split_aux]. rewrite H13, H10.
        destruct (N.eqb_spec c' 10) as [->|Hc'].
        -- rewrite (IH s'' []) by lia.
           cbn [split_aux]. rewrite H10. reflexivity.
        -- rewrite (IH (c' :: s'') []) by (simpl; lia). reflexivity.
    + cbn [split_aux]. destruct (is_space c).
      * rewrite IH by lia. reflexivity.
      * apply IH. lia.
Qed.

(** White space is all that universal newlines change, so the words stay. *)
Lemma split_newlines : forall s, split (universal_newlines s) = split s.
Proof. intro s. apply (split_aux_newlines (n := length s)). lia. Qed.

Lemma split_spaces : forall s,
  Forall (fun c => is_space c = true) s -> split s = [].
Proof.
  intros s H. rewrite <- split_lstrip. rewrite lstrip_spaces by assumption.
  reflexivity.
Qed.

End Texts.
(* ===================================================================== *)
(** * The engine: what ingestion leaves behind *)
(* ===================================================================== *)

Import Engine.

Section EngineFacts.

Variable V : TfidfVectorizer.

Local Abbreviation Engine := (Engine V).

Lemma build_index_rebuilt : forall name text (self : Engine),
  (let named := set_chunks (_chunk_text (set_source_name name self) text)
                  (set_source_name name self) in
   let (self', built) := _build_index (chunks named) named in
   match built with
   | inl e => (self', raise e)
   | inr _ => (self', ok (Z.of_nat (length (chunks self'))))
   end)
  = rebuilt name text self.
Proof.
  intros name text self. unfold rebuilt, _build_index. cbn.
  destruct (fit_transform V (vectorizer self) _) as [v [e|X]]; cbn;
    [reflexivity|].
  destruct (Nat.eqb (size X) 0); [reflexivity|].
  unfold Faiss.add, Faiss.new. cbn. rewrite Nat.eqb_refl. reflexivity.
Qed.

Lemma ingest_text_rebuilt : forall text source (self : Engine),
  ingest_text text source self
  = if blank text
    then (self, raise (ValueError (lit "Input text is empty.")))
    else rebuilt source text self.
Proof.
  intros text source self. unfold ingest_text.
  destruct (blank text); [reflexivity|]. apply build_index_rebuilt.
Qed.

Lemma ingest_txt_rebuilt : forall path bs T (self : Engine),
  fv_exists path = true ->
  fv_suffix_lower path = lit ".txt" ->
  fv_bytes path = inr bs ->
  utf8_decode bs = Some T ->
  ingest_file path self
  = if blank (universal_newlines T)
    then (self,
          raise (ValueError (lit "No text could be extracted from the file.")))
    else rebuilt (fv_name path) (universal_newlines T) self.
Proof.
  intros path bs T self Hex Hsuf Hbs Hdec. unfold ingest_file, read_text.
  rewrite Hex, Hsuf, Hbs. cbn. rewrite Hdec. cbn.
  destruct (blank (universal_newlines T)); [reflexivity|].
  apply build_index_rebuilt.
Qed.

(** [ingest_file] either stops before it assigns anything, or runs the
    shared lines on the extracted text. *)
Lemma ingest_file_rebuilt : forall path (self : Engine),
  (exists e, ingest_file path self = (self, inl e))
  \/ (exists text, ingest_file path self = rebuilt (fv_name path) text self).
Proof.
  intros path self. unfold ingest_file.
  destruct (fv_exists path); cbn; [|left; eexists; reflexivity].
  match goal with
  | |- context [match ?x with inl _ => _ | inr _ => _ end] =>
      destruct x as [e|text]
  end; [left; eexists; reflexivity|].
  destruct (blank text); [left; eexists; reflexivity|].
  right. exists text. apply build_index_rebuilt.
Qed.

Lemma rebuilt_raised : forall name text (self self' : Engine) e,
  rebuilt name text self = (self', inl e) ->
  index self' = index self /\ embeddings self' = embeddings self.
Proof.
  intros name text self self' e. unfold rebuilt.
  destruct (fit_transform V (vectorizer self) _) as [v [e'|X]].
  - intros [= <- _]. split; reflexivity.
  - destruct (Nat.eqb (size X) 0); [|discriminate].
    intros [= <- _]. split; reflexivity.
Qed.

Lemma rebuilt_returned : forall name text (self self' : Engine) n,
  fits V ->
  rebuilt name text self = (self', inr n) ->
  n = Z.of_nat (length (chunks self'))
  /\ exists ix, knowledge_base self' ix.
Proof.
  intros name text self self' n HV. unfold rebuilt.
  destruct (fit_transform V (vectorizer self) _) as [v [e'|X]] eqn:Hfit;
    [discriminate|].
  destruct (Nat.eqb_spec (size X) 0) as [|Hsize]; [discriminate|].
  intros [= <- <-]. split; [reflexivity|].
  pose proof (fit_rows HV _ _ Hfit) as Hrows.
  exists {| Faiss.d := ncols X; Faiss.xb := rows X |}.
  constructor; cbn.
  - reflexivity.
  - intro E. rewrite E in Hrows. unfold size in Hsize.
    rewrite Hrows in Hsize. simpl in Hsize. lia.
  - exact Hrows.
  - exact (fit_rectangular HV _ _ Hfit).
  - exact (fit_projects HV _ _ Hfit).
Qed.

Lemma knowledge_base_consistent : forall (self : Engine) ix,
  knowledge_base self ix -> consistent self.
Proof.
  intros self ix H. unfold consistent, index_rows.
  rewrite (kb_index H). exact (kb_rows H).
Qed.

Lemma ingest_text_raised : forall text source (self self' : Engine) e,
  ingest_text text source self = (self', inl e) ->
  index self' = index self /\ embeddings self' = embeddings self.
Proof.
  intros text source self self' e. rewrite ingest_text_rebuilt.
  destruct (blank text).
  - intros [= <- _]. split; reflexivity.
  - apply rebuilt_raised.
Qed.

Lemma ingest_file_raised : forall path (self self' : Engine) e,
  ingest_file path self = (self', inl e) ->
  index self' = index self /\ embeddings self' = embeddings self.
Proof.
  intros path self self' e.
  destruct (ingest_file_rebuilt path self) as [[e' ->]|[text ->]].
  - intros [= <- _]. split; reflexivity.
  - apply rebuilt_raised.
Qed.

Lemma ingest_text_returned : forall text source (self self' : Engine) n,
  fits V ->
  ingest_text text source self = (self', inr n) ->
  n = Z.of_nat (length (chunks self'))
  /\ exists ix, knowledge_base self' ix.
Proof.
  intros text source self self' n HV. rewrite ingest_text_rebuilt.
  destruct (blank text); [discriminate|]. apply rebuilt_returned, HV.
Qed.

Lemma ingest_file_returned : forall path (self self' : Engine) n,
  fits V ->
  ingest_file path self = (self', inr n) ->
  n = Z.of_nat (length (chunks self'))
  /\ exists ix, knowledge_base self' ix.
Proof.
  intros path self self' n HV.
  destruct (ingest_file_rebuilt path self) as [[e' ->]|[text ->]];
    [discriminate|]. apply rebuilt_returned, HV.
Qed.

Lemma never_loaded_no_index : forall self : Engine,
  never_loaded self -> index self = None.
Proof.
  induction 1 as [key env_key model size overlap self Hinit
                 |self path self' e _ IH Hcall
                 |self text source self' e _ IH Hcall].
  - unfold __init__ in Hinit.
    destruct (or_else key env_key) as [[|c k]|]; try discriminate.
    injection Hinit as <-. reflexivity.
  - apply ingest_file_raised in Hcall. destruct Hcall as [-> _]. exact IH.
  - apply ingest_text_raised in Hcall. destruct Hcall as [-> _]. exact IH.
Qed.

End EngineFacts.
(* ===================================================================== *)
(** * The chunker: scenario and round trip *)
(* ===================================================================== *)

(** C1.  The text "The cat sat. The dog ran." has the six words The, cat,
    sat., The, dog, ran.; with [chunk_size_words = 3] and
    [chunk_overlap_words = 1] the step is 2 and the chunker returns exactly
    "The cat sat.", "sat. The dog", "dog ran.": the windows [0,3), [2,5) and
    [4,7) of the words, joined with single spaces, the loop stopping after
    the window whose end 7 reaches the word count 6. *)
Theorem chunk_text_cat_dog :
  let text := lit "The cat sat. The dog ran." in
  let words := [lit "The"; lit "cat"; lit "sat."; lit "The"; lit "dog";
                lit "ran."] in
  split text = words
  /\ Z.max 1 (3 - 1) = 2
  /\ range0 (Z.of_nat (length words)) 2 = [0; 2; 4]
  /\ [join (lit " ") (slice words 0 3); join (lit " ") (slice words 2 5);
      join (lit " ") (slice words 4 7)]
     = [lit "The cat sat."; lit "sat. The dog"; lit "dog ran."]
  /\ Chunker._chunk_text 3 1 text
     = [lit "The cat sat."; lit "sat. The dog"; lit "dog ran."].
Proof.
  cbv zeta. split; [vm_compute; reflexivity|]. split; [reflexivity|].
  split; [vm_compute; reflexivity|]. split; vm_compute; reflexivity.
Qed.

(** C3, as stated, fails: the claim only asks for [O < S], and the engine
    takes any integers.  With [S = 2] and the negative overlap [O = -1] the
    step is 3, the text "a b c d" is chunked into "a b" and "d", and the
    word c is in no chunk: reading the chunks back gives a, b, d. *)
Lemma chunk_round_trip_negative_overlap :
  let text := lit "a b c d" in
  (-1 < 2)
  /\ (0 < length (split text))%nat
  /\ Chunker._chunk_text 2 (-1) text = [lit "a b"; lit "d"]
  /\ reassemble (Z.to_nat (2 - -1)) (Chunker._chunk_text 2 (-1) text)
     = [lit "a"; lit "b"; lit "d"]
  /\ reassemble (Z.to_nat (2 - -1)) (Chunker._chunk_text 2 (-1) text)
     <> split text.
Proof.
  cbv zeta. split; [lia|]. split; [vm_compute; lia|].
  split; [vm_compute; reflexivity|]. split; [vm_compute; reflexivity|].
  vm_compute. discriminate.
Qed.

(** C3, amended.  For every text with at least one word and all sizes with
    [0 <= O < S]: the first [S - O] words of every chunk but the last,
    followed by the words of the last chunk, are exactly the words of the
    text, and the last word of the last chunk is the last word of the
    text. *)
Theorem chunk_round_trip : forall (S O : Z) (text : str),
  (0 < length (split text))%nat ->
  0 <= O < S ->
  reassemble (Z.to_nat (S - O)) (Chunker._chunk_text S O text) = split text
  /\ final_word (Chunker._chunk_text S O text) = last_word text.
Proof.
  intros S O text Hwords HSO. unfold Chunker._chunk_text, last_word.
  pose proof (split_words text) as Hw.
  destruct (split text) as [|w ws] eqn:E; [simpl in Hwords; lia|].
  rewrite Z.max_r by lia. unfold range0. rewrite Nat2Z.id.
  destruct (@chunk_loop_from (w :: ws) Hw (Z.to_nat S) (Z.to_nat (S - O)))
    with (fuel := length (w :: ws)) (s := 0%nat) as (_ & Hre & Hlast);
    try lia.
  cbv zeta in Hre, Hlast.
  rewrite !Z2Nat.id in Hre, Hlast by lia.
  change (Z.of_nat 0) with 0 in Hre, Hlast.
  split; [exact Hre|exact Hlast].
Qed.

Lemma chunk_round_trip_witness :
  (0 < length (split (lit "The cat sat. The dog ran.")))%nat
  /\ 0 <= 1 < 3
  /\ reassemble (Z.to_nat (3 - 1))
       (Chunker._chunk_text 3 1 (lit "The cat sat. The dog ran."))
     = split (lit "The cat sat. The dog ran.")
  /\ final_word (Chunker._chunk_text 3 1 (lit "The cat sat. The dog ran."))
     = last_word (lit "The cat sat. The dog ran.").
Proof.
  assert (H1 : (0 < length (split (lit "The cat sat. The dog ran.")))%nat)
    by (vm_compute; lia).
  assert (H2 : 0 <= 1 < 3) by lia.
  split; [exact H1|]. split; [exact H2|].
  exact (chunk_round_trip (lit "The cat sat. The dog ran.") H1 H2).
Defined.
(* ===================================================================== *)
(** * The stub collaborators *)
(* ===================================================================== *)

Lemma counts_length : forall vocab doc,
  length (Stub.counts vocab doc) = length vocab.
Proof. intros. unfold Stub.counts. apply length_map. Qed.

Lemma counts_rectangular : forall vocab docs,
  rectangular {| ncols := length vocab;
                 rows := List.map (Stub.counts vocab) docs |}.
Proof.
  intros vocab docs. unfold rectangular. cbn.
  apply Forall_forall. intros r Hr. apply in_map_iff in Hr.
  destruct Hr as (doc & <- & _). apply counts_length.
Qed.

(** The stub meets what the engine relies on. *)
Lemma count_vectorizer_fits : fits Stub.count_vectorizer.
Proof.
  constructor; cbn; intros v docs v' X;
    destruct (Stub.vocabulary docs) as [|w vocab]; try discriminate;
    intros [= <- <-].
  - unfold nrows. cbn. apply length_map.
  - exact (counts_rectangular (w :: vocab) docs).
  - intro q. eexists. split; [reflexivity|]. apply counts_length.
Qed.

(* ===================================================================== *)
(** * Consistency of chunks and index *)
(* ===================================================================== *)

(** C2, as stated, fails.  [ingest_text] assigns [self.chunks] before it
    builds the index.  On an engine with one chunk and one index row, an
    ingest of the two stop words "the of" (chunks of one word) replaces the
    chunk list by two chunks, then raises in the vectorizer: the engine is
    left with two chunks and the old index of one row. *)
Lemma ingest_not_atomic :
  let e0 := Stub.engine Stub.count_vectorizer 1 0 in
  let first := ingest_text (lit "apple") (lit "first") e0 in
  let second := ingest_text (lit "the of") (lit "second") (fst first) in
  fits Stub.count_vectorizer
  /\ snd first = inr 1
  /\ consistent (fst first)
  /\ returned (snd second) = false
  /\ chunks (fst second) = [lit "the"; lit "of"]
  /\ index_rows (fst second) = 1%nat
  /\ ~ consistent (fst second).
Proof.
  cbv zeta. split; [exact count_vectorizer_fits|].
  split; [vm_compute; reflexivity|]. split; [vm_compute; reflexivity|].
  split; [vm_compute; reflexivity|]. split; [vm_compute; reflexivity|].
  split; [vm_compute; reflexivity|].
  unfold consistent. vm_compute. discriminate.
Qed.

(** C2, amended.  With a vectorizer that returns one row per document: an
    ingest that returns leaves a knowledge base, so index row count ==
    chunk count; [retrieve] and [answer] leave the engine as it is; an
    ingest that raises leaves index and embeddings as they were before the
    call (the chunk list may already be the new one). *)
Theorem ingest_consistency :
  forall (V : TfidfVectorizer) (generate : GenRequest -> result str)
         (c : call) (self : Engine V),
  fits V ->
  match c with
  | IngestFile _ | IngestText _ _ =>
      (snd (after generate c self) = true ->
       consistent (fst (after generate c self))
       /\ exists ix, knowledge_base (fst (after generate c self)) ix)
      /\ (snd (after generate c self) = false ->
          index (fst (after generate c self)) = index self
          /\ embeddings (fst (after generate c self)) = embeddings self)
  | Retrieve _ _ | Answer _ _ _ => fst (after generate c self) = self
  end.
Proof.
  intros V generate c self HV.
  destruct c as [path|text source|query top_k|query top_k temperature];
    cbn [after]; try reflexivity.
  - destruct (ingest_file path self) as [self' [e|n]] eqn:E; cbn; split;
      intro H; try discriminate.
    + exact (ingest_file_raised _ _ E).
    + destruct (ingest_file_returned _ _ HV E) as (_ & ix & Hkb).
      split; [exact (knowledge_base_consistent Hkb)|exists ix; exact Hkb].
  - destruct (ingest_text text source self) as [self' [e|n]] eqn:E; cbn;
      split; intro H; try discriminate.
    + exact (ingest_text_raised _ _ _ E).
    + destruct (ingest_text_returned _ _ _ HV E) as (_ & ix & Hkb).
      split; [exact (knowledge_base_consistent Hkb)|exists ix; exact Hkb].
Qed.

Lemma ingest_consistency_witness :
  let e0 := Stub.engine Stub.count_vectorizer 3 1 in
  let c := IngestText (lit "The cat sat. The dog ran.") (lit "pets") in
  fits Stub.count_vectorizer
  /\ snd (after Stub.generate c e0) = true
  /\ consistent (fst (after Stub.generate c e0))
  /\ length (chunks (fst (after Stub.generate c e0))) = 3%nat.
Proof.
  cbv zeta. split; [exact count_vectorizer_fits|].
  assert (Hok : snd (after Stub.generate
                       (IngestText (lit "The cat sat. The dog ran.")
                          (lit "pets"))
                       (Stub.engine Stub.count_vectorizer 3 1)) = true)
    by (vm_compute; reflexivity).
  split; [exact Hok|]. split; [|vm_compute; reflexivity].
  exact (proj1 (proj1 (ingest_consistency Stub.generate
                         (IngestText (lit "The cat sat. The dog ran.")
                            (lit "pets"))
                         (Stub.engine Stub.count_vectorizer 3 1)
                         count_vectorizer_fits) Hok)).
Defined.

(* ===================================================================== *)
(** * Errors of retrieval, synthesis and ingestion *)
(* ===================================================================== *)

(** C6.  On an engine on which no ingest has succeeded, and generally on
    one without index or without chunks, [retrieve] raises the
    [RuntimeError] "No knowledge base loaded. Ingest a file first." for
    every query and every [top_k]. *)
Theorem retrieve_without_knowledge_base :
  forall (V : TfidfVectorizer) (self : Engine V) (query : str) (top_k : Z),
  never_loaded self \/ index self = None \/ chunks self = [] ->
  retrieve self query top_k
  = inl (RuntimeError
           (lit "No knowledge base loaded. Ingest a file first.")).
Proof.
  intros V self query top_k H. unfold retrieve.
  assert (H' : index self = None \/ chunks self = []).
  { destruct H as [H|H]; [left; apply never_loaded_no_index; exact H|exact H]. }
  destruct H' as [->| ->]; [reflexivity|].
  destruct (index self); reflexivity.
Qed.

Lemma retrieve_without_knowledge_base_witness :
  let e0 := Stub.engine Stub.count_vectorizer 3 1 in
  let e1 := fst (ingest_text (lit "the of and") (lit "stop words") e0) in
  chunks e1 = [lit "the of and"]
  /\ never_loaded e1
  /\ retrieve e1 (lit "apple") 3
     = inl (RuntimeError
              (lit "No knowledge base loaded. Ingest a file first.")).
Proof.
  cbv zeta. split; [vm_compute; reflexivity|].
  assert (Hnever : never_loaded
            (fst (ingest_text (lit "the of and") (lit "stop words")
                    (Stub.engine Stub.count_vectorizer 3 1)))).
  { apply nl_text with (self := Stub.engine Stub.count_vectorizer 3 1)
      (text := lit "the of and") (source := lit "stop words")
      (e := ValueError
         (lit "empty vocabulary; perhaps the documents only contain stop words")).
    - apply nl_new with (key := Some (lit "key")) (env_key := None)
        (model := lit "llama-3.1-8b-instant") (size := 3) (overlap := 1).
      reflexivity.
    - vm_compute. reflexivity. }
  split; [exact Hnever|].
  exact (retrieve_without_knowledge_base (lit "apple") 3 (or_introl Hnever)).
Defined.

(** C7.  Whenever [retrieve] returns the empty list, [answer] returns the
    fixed sentence "I could not retrieve relevant context." with an empty
    evidence list, and sends no request to the generation collaborator. *)
Theorem answer_without_context :
  forall (V : TfidfVectorizer) (generate : GenRequest -> result str)
         (self : Engine V) (query : str) (top_k : Z) (temperature : num),
  retrieve self query top_k = inr [] ->
  answer generate self query top_k temperature
  = (inr (lit "I could not retrieve relevant context.", []), []).
Proof.
  intros V generate self query top_k temperature H.
  unfold answer. rewrite H. reflexivity.
Qed.

Lemma answer_without_context_witness :
  let e0 := Stub.engine Stub.count_vectorizer 2 0 in
  let e1 := fst (ingest_text (lit "apple banana apple orange car truck")
                   (lit "fruit") e0) in
  let e2 := fst (ingest_text (lit "the of and the") (lit "stop words") e1) in
  retrieve e2 (lit "truck") 1 = inr []
  /\ answer Stub.generate e2 (lit "truck") 1 0%Q
     = (inr (lit "I could not retrieve relevant context.", []), []).
Proof.
  cbv zeta.
  assert (H : retrieve
                (fst (ingest_text (lit "the of and the") (lit "stop words")
                   (fst (ingest_text
                           (lit "apple banana apple orange car truck")
                           (lit "fruit")
                           (Stub.engine Stub.count_vectorizer 2 0)))))
                (lit "truck") 1 = inr [])
    by (vm_compute; reflexivity).
  split; [exact H|].
  exact (answer_without_context Stub.generate _ _ _ 0%Q H).
Defined.

(** C8.  Whenever the matrix the vectorizer returns for the chunk list has
    no row or no column, [_build_index] raises the [ValueError] "Failed to
    create embeddings from chunks.", and with it [ingest_text] and
    [ingest_file] on a text with these chunks. *)
Theorem empty_embeddings_rejected :
  forall (V : TfidfVectorizer) (self : Engine V) (cs : list str)
         (v : vec V) (X : ndarray),
  fit_transform V (vectorizer self) cs = (v, inr X) ->
  (nrows X = 0 \/ ncols X = 0)%nat ->
  let failed : result Z :=
    inl (ValueError (lit "Failed to create embeddings from chunks.")) in
  snd (_build_index cs self)
  = inl (ValueError (lit "Failed to create embeddings from chunks."))
  /\ (forall text source,
        blank text = false ->
        _chunk_text self text = cs ->
        snd (ingest_text text source self) = failed)
  /\ (forall path bs T,
        fv_exists path = true ->
        fv_suffix_lower path = lit ".txt" ->
        fv_bytes path = inr bs ->
        utf8_decode bs = Some T ->
        blank (universal_newlines T) = false ->
        _chunk_text self (universal_newlines T) = cs ->
        snd (ingest_file path self) = failed).
Proof.
  intros V self cs v X Hfit Hempty failed.
  assert (Hsize : Nat.eqb (size X) 0 = true).
  { apply Nat.eqb_eq. unfold size. destruct Hempty as [-> | ->]; lia. }
  assert (Hre : forall name text,
             _chunk_text self text = cs ->
             snd (rebuilt name text self) = failed).
  { intros name text Hcs. unfold rebuilt. rewrite Hcs, Hfit, Hsize.
    reflexivity. }
  split; [|split].
  - unfold _build_index. rewrite Hfit, Hsize. reflexivity.
  - intros text source Hblank Hcs. rewrite ingest_text_rebuilt, Hblank.
    apply Hre, Hcs.
  - intros path bs T Hex Hsuf Hbs Hdec Hblank Hcs.
    rewrite (ingest_txt_rebuilt _ self Hex Hsuf Hbs Hdec), Hblank.
    apply Hre, Hcs.
Qed.

Lemma empty_embeddings_rejected_witness :
  let e0 := Stub.engine Stub.lenient_vectorizer 3 1 in
  let X := {| ncols := 0; rows := [[]] |} in
  fit_transform Stub.lenient_vectorizer (vectorizer e0) [lit "the of and"]
  = (Some [], inr X)
  /\ (nrows X = 0 \/ ncols X = 0)%nat
  /\ snd (_build_index [lit "the of and"] e0)
     = inl (ValueError (lit "Failed to create embeddings from chunks."))
  /\ snd (ingest_text (lit " the of  and ") (lit "stop words") e0)
     = inl (ValueError (lit "Failed to create embeddings from chunks.")).
Proof.
  cbv zeta.
  assert (Hfit : fit_transform Stub.lenient_vectorizer
                   (vectorizer (Stub.engine Stub.lenient_vectorizer 3 1))
                   [lit "the of and"]
                 = (Some [], inr {| ncols := 0; rows := [[]] |}))
    by (vm_compute; reflexivity).
  assert (Hempty : (nrows {| ncols := 0; rows := [[]] |} = 0
                    \/ ncols {| ncols := 0; rows := [[]] |} = 0)%nat)
    by (right; reflexivity).
  split; [exact Hfit|]. split; [exact Hempty|].
  destruct (empty_embeddings_rejected
              (Stub.engine Stub.lenient_vectorizer 3 1) _ Hfit Hempty)
    as (Hbuild & Htext & _).
  split; [exact Hbuild|].
  apply Htext; vm_compute; reflexivity.
Defined.

(** C9, as stated, fails.  [ingest_file] compares the lower-cased suffix:
    the existing file "MIX.TXT" has the suffix ".TXT", which is neither
    ".txt" nor ".pdf", and it is read as a text file and ingested. *)
Lemma ingest_file_upper_case_suffix :
  let e0 := Stub.engine Stub.count_vectorizer 3 1 in
  let mix :=
    {| fv_str := lit "notes/MIX.TXT";
       fv_name := lit "MIX.TXT";
       fv_suffix := lit ".TXT";
       fv_exists := true;
       fv_bytes := inr [97; 112; 112; 108; 101; 32; 112; 105; 101]%N;
       fv_pdf := inl (CollaboratorError (lit "not a PDF")) |} in
  fv_exists mix = true
  /\ fv_suffix mix <> lit ".txt"
  /\ fv_suffix mix <> lit ".pdf"
  /\ snd (ingest_file mix e0) = inr 1
  /\ chunks (fst (ingest_file mix e0)) = [lit "apple pie"]
  /\ source_name (fst (ingest_file mix e0)) = Some (lit "MIX.TXT").
Proof.
  cbv zeta. split; [reflexivity|].
  split; [vm_compute; discriminate|]. split; [vm_compute; discriminate|].
  split; [vm_compute; reflexivity|]. split; vm_compute; reflexivity.
Qed.

(** C9, amended.  For an existing file whose lower-cased suffix is neither
    ".txt" nor ".pdf", [ingest_file] raises the [ValueError] "Unsupported
    file type. Use .txt or .pdf"; for an existing file of lower-cased
    suffix ".txt" whose decoded content is empty or white space only, it
    raises the [ValueError] "No text could be extracted from the file.".
    In both cases the engine is left as it was. *)
Theorem ingest_file_rejects :
  forall (V : TfidfVectorizer) (self : Engine V) (path : FileView),
  fv_exists path = true ->
  (fv_suffix_lower path <> lit ".txt" ->
   fv_suffix_lower path <> lit ".pdf" ->
   ingest_file path self
   = (self, inl (ValueError (lit "Unsupported file type. Use .txt or .pdf"))))
  /\ (forall bs T,
        fv_suffix_lower path = lit ".txt" ->
        fv_bytes path = inr bs ->
        utf8_decode bs = Some T ->
        Forall (fun c => is_space c = true) T ->
        ingest_file path self
        = (self,
           inl (ValueError
                  (lit "No text could be extracted from the file.")))).
Proof.
  intros V self path Hex. split.
  - intros Htxt Hpdf. unfold ingest_file.
    rewrite Hex, (str_eqb_neq Htxt), (str_eqb_neq Hpdf). reflexivity.
  - intros bs T Hsuf Hbs Hdec Hspace.
    rewrite (ingest_txt_rebuilt _ self Hex Hsuf Hbs Hdec).
    rewrite blank_wordless. unfold wordless.
    rewrite split_newlines, (split_spaces Hspace). reflexivity.
Qed.

Lemma ingest_file_rejects_witness :
  let e0 := Stub.engine Stub.count_vectorizer 3 1 in
  let docx :=
    {| fv_str := lit "notes/report.docx";
       fv_name := lit "report.docx";
       fv_suffix := lit ".docx";
       fv_exists := true;
       fv_bytes := inr [80; 75; 3; 4]%N;
       fv_pdf := inl (CollaboratorError (lit "not a PDF")) |} in
  let spaces := Stub.txt (lit "blank.txt") [32; 13; 10; 9; 32]%N in
  ingest_file docx e0
  = (e0, inl (ValueError (lit "Unsupported file type. Use .txt or .pdf")))
  /\ ingest_file spaces e0
     = (e0, inl (ValueError (lit "No text could be extracted from the file."))).
Proof.
  cbv zeta. split.
  - apply ingest_file_rejects; [reflexivity| |]; vm_compute; discriminate.
  - apply (proj2 (ingest_file_rejects
                    (Stub.engine Stub.count_vectorizer 3 1)
                    (Stub.txt (lit "blank.txt") [32; 13; 10; 9; 32]%N)
                    eq_refl))
      with (bs := [32; 13; 10; 9; 32]%N) (T := [32; 13; 10; 9; 32]%N);
      try reflexivity.
    repeat constructor.
Defined.

(** C10.  For every text [T] with a character that is not white space, and
    every existing ".txt" file whose bytes decode to [T]: [ingest_text T]
    and [ingest_file] on that file return or raise the same, and leave the
    same chunk list, vectorizer, index and embeddings (and the same
    settings); only the recorded source name differs, the given name in
    one and the file name in the other. *)
Theorem ingest_text_matches_txt_file :
  forall (V : TfidfVectorizer) (self : Engine V) (path : FileView)
         (bs : list N) (T source : str),
  fv_exists path = true ->
  fv_suffix_lower path = lit ".txt" ->
  fv_bytes path = inr bs ->
  utf8_decode bs = Some T ->
  ink T = true ->
  let by_text := ingest_text T source self in
  let by_file := ingest_file path self in
  snd by_text = snd by_file
  /\ chunks (fst by_text) = chunks (fst by_file)
  /\ vectorizer (fst by_text) = vectorizer (fst by_file)
  /\ index (fst by_text) = index (fst by_file)
  /\ embeddings (fst by_text) = embeddings (fst by_file)
  /\ model_name (fst by_text) = model_name (fst by_file)
  /\ chunk_size_words (fst by_text) = chunk_size_words (fst by_file)
  /\ chunk_overlap_words (fst by_text) = chunk_overlap_words (fst by_file)
  /\ groq_api_key (fst by_text) = groq_api_key (fst by_file)
  /\ source_name (fst by_text) = Some source
  /\ source_name (fst by_file) = Some (fv_name path).
Proof.
  intros V self path bs T source Hex Hsuf Hbs Hdec Hink. cbv zeta.
  assert (HT : blank T = false).
  { rewrite blank_wordless. rewrite ink_wordless in Hink.
    destruct (wordless T); [discriminate|reflexivity]. }
  assert (HT' : blank (universal_newlines T) = false).
  { rewrite blank_wordless in *. unfold wordless in *.
    rewrite split_newlines. exact HT. }
  rewrite ingest_text_rebuilt, HT.
  rewrite (ingest_txt_rebuilt _ self Hex Hsuf Hbs Hdec), HT'.
  unfold rebuilt, _chunk_text, Chunker._chunk_text.
  rewrite split_newlines.
  destruct (fit_transform V (vectorizer self) _) as [v [e|X]];
    [cbn; repeat split; reflexivity|].
  destruct (Nat.eqb (size X) 0); cbn; repeat split; reflexivity.
Qed.

Lemma ingest_text_matches_txt_file_witness :
  let e0 := Stub.engine Stub.count_vectorizer 3 1 in
  let T := [97; 32; 98; 13; 10; 99; 13; 233; 32; 100]%N in
  let bs := [97; 32; 98; 13; 10; 99; 13; 195; 169; 32; 100]%N in
  let by_text := ingest_text T (lit "pasted") e0 in
  let by_file := ingest_file (Stub.txt (lit "a.txt") bs) e0 in
  utf8_decode bs = Some T
  /\ ink T = true
  /\ snd by_text = inr 2
  /\ snd by_text = snd by_file
  /\ chunks (fst by_text) = chunks (fst by_file)
  /\ index (fst by_text) = index (fst by_file).
Proof.
  cbv zeta.
  pose proof (@ingest_text_matches_txt_file Stub.count_vectorizer
                (Stub.engine Stub.count_vectorizer 3 1)
                (Stub.txt (lit "a.txt")
                   [97; 32; 98; 13; 10; 99; 13; 195; 169; 32; 100]%N)
                [97; 32; 98; 13; 10; 99; 13; 195; 169; 32; 100]%N
                [97; 32; 98; 13; 10; 99; 13; 233; 32; 100]%N
                (lit "pasted") eq_refl eq_refl eq_refl eq_refl eq_refl)
    as (Hres & Hchunks & _ & Hindex & _).
  split; [reflexivity|]. split; [reflexivity|].
  split; [vm_compute; reflexivity|].
  split; [exact Hres|]. split; [exact Hchunks|exact Hindex].
Defined.
(* ===================================================================== *)
(** * The similarity index: ranking *)
(* ===================================================================== *)

Section Ranking.

Import Faiss.

Local Open Scope Q_scope.

Lemma hit_leb_le : forall h1 h2, hit_leb h1 h2 = true -> ranks_le h1 h2.
Proof.
  intros [d1 i1] [d2 i2]. unfold hit_leb, ranks_le. cbn.
  rewrite andb_true_iff, orb_true_iff, negb_true_iff.
  intros [Hle Hrest]. apply Qle_bool_iff in Hle.
  destruct (Qlt_le_dec d1 d2) as [Hlt|Hge]; [left; exact Hlt|].
  right. split; [lra|].
  destruct Hrest as [Hn|Hi].
  - apply Qle_bool_iff in Hge. congruence.
  - apply Z.leb_le. exact Hi.
Qed.

Lemma hit_leb_gt : forall h1 h2, hit_leb h1 h2 = false -> ranks_before h2 h1.
Proof.
  intros [d1 i1] [d2 i2]. unfold hit_leb, ranks_before. cbn.
  rewrite andb_false_iff, orb_false_iff, negb_false_iff.
  intros [Hn|[Hge Hi]].
  - left. destruct (Qlt_le_dec d2 d1) as [Hlt|Hle]; [exact Hlt|].
    apply Qle_bool_iff in Hle. congruence.
  - apply Qle_bool_iff in Hge. apply Z.leb_gt in Hi.
    destruct (Qlt_le_dec d2 d1) as [Hlt|Hle]; [left; exact Hlt|].
    right. split; [lra|lia].
Qed.

Lemma ranks_before_le : forall h1 h2, ranks_before h1 h2 -> ranks_le h1 h2.
Proof. intros h1 h2 [H|[H1 H2]]; [left; exact H|right; split; [exact H1|lia]]. Qed.

Lemma ranks_le_trans : forall h1 h2 h3,
  ranks_le h1 h2 -> ranks_le h2 h3 -> ranks_le h1 h3.
Proof.
  intros [d1 i1] [d2 i2] [d3 i3]. unfold ranks_le. cbn.
  intros [H12|[H12 I12]] [H23|[H23 I23]].
  - left. lra.
  - left. lra.
  - left. lra.
  - right. split; [lra|lia].
Qed.

Lemma ranks_le_distinct : forall h1 h2,
  ranks_le h1 h2 -> snd h1 <> snd h2 -> ranks_before h1 h2.
Proof.
  intros h1 h2 [H|[H1 H2]] Hne; [left; exact H|].
  right. split; [exact H1|lia].
Qed.

Lemma insert_hit_perm : forall h l, Permutation (insert_hit h l) (h :: l).
Proof.
  intros h. induction l as [|h' l IH]; simpl; [apply Permutation_refl|].
  destruct (hit_leb h h'); [apply Permutation_refl|].
  eapply perm_trans; [apply perm_skip, IH|apply perm_swap].
Qed.

Lemma sort_hits_perm : forall l, Permutation (sort_hits l) l.
Proof.
  induction l as [|h l IH]; simpl; [apply perm_nil|].
  eapply perm_trans; [apply insert_hit_perm|apply perm_skip, IH].
Qed.

Lemma insert_hit_sorted : forall h l,
  StronglySorted ranks_le l -> StronglySorted ranks_le (insert_hit h l).
Proof.
  intros h. induction l as [|h' l IH]; intros Hs; simpl.
  - constructor; constructor.
  - inversion Hs as [|? ? Hl Hall]; subst.
    destruct (hit_leb h h') eqn:E.
    + apply hit_leb_le in E. constructor; [exact Hs|].
      constructor; [exact E|].
      eapply Forall_impl; [|exact Hall].
      intros x Hx. eapply ranks_le_trans; eassumption.
    + apply hit_leb_gt, ranks_before_le in E.
      constructor; [apply IH; exact Hl|].
      eapply Permutation_Forall;
        [apply Permutation_sym, insert_hit_perm|].
      constructor; assumption.
Qed.

Lemma sort_hits_sorted : forall l, StronglySorted ranks_le (sort_hits l).
Proof.
  induction l as [|h l IH]; simpl; [constructor|].
  apply insert_hit_sorted, IH.
Qed.

(** Sorted hits with pairwise distinct row numbers are strictly ranked. *)
Lemma sorted_distinct_strict : forall l,
  StronglySorted ranks_le l -> NoDup (List.map snd l) ->
  StronglySorted ranks_before l.
Proof.
  induction 1 as [|h l Hl IH Hall]; intros Hnd; [constructor|].
  cbn in Hnd. inversion Hnd as [|? ? Hnot Hnd']; subst.
  constructor; [apply IH; exact Hnd'|].
  apply Forall_forall. intros x Hx.
  apply ranks_le_distinct.
  - exact (proj1 (Forall_forall _ _) Hall x Hx).
  - intro E. apply Hnot. rewrite E. apply in_map. exact Hx.
Qed.

Lemma sorted_firstn : forall (A : Type) (R : A -> A -> Prop) l n,
  StronglySorted R l -> StronglySorted R (firstn n l).
Proof.
  intros A R l n H. revert n.
  induction H as [|a l Hl IH Hall]; intros [|n]; simpl; try constructor.
  - apply IH.
  - apply Forall_forall. intros x Hx.
    apply (proj1 (Forall_forall _ _) Hall).
    rewrite <- (firstn_skipn n l). apply in_or_app. left. exact Hx.
Qed.

Lemma sorted_filter : forall (A : Type) (R : A -> A -> Prop) f l,
  StronglySorted R l -> StronglySorted R (filter f l).
Proof.
  intros A R f l H.
  induction H as [|a l Hl IH Hall]; simpl; [constructor|].
  destruct (f a); [|exact IH].
  constructor; [exact IH|].
  apply Forall_forall. intros x Hx. apply filter_In in Hx.
  exact (proj1 (Forall_forall _ _) Hall x (proj1 Hx)).
Qed.

Lemma Forall_firstn : forall (A : Type) (P : A -> Prop) l n,
  Forall P l -> Forall P (firstn n l).
Proof.
  intros A P l n H. revert n. induction H; intros [|n]; simpl; auto.
Qed.

(** The candidates: one per stored row, numbered from [from] on, each with
    the distance of its row. *)
Lemma candidates_rows : forall q stored from,
  Forall (fun h => (from <= snd h < from + Z.of_nat (length stored))%Z
                   /\ fst h = sqdist q (nth (Z.to_nat (snd h - from)) stored []))
         (candidates q from stored).
Proof.
  intros q. induction stored as [|x stored IH]; intros from; simpl;
    constructor.
  - cbn. split; [lia|]. rewrite Z.sub_diag. reflexivity.
  - eapply Forall_impl; [|apply (IH (from + 1)%Z)].
    intros [dist i] [Hi Hd]. cbn [fst snd length] in *. split; [lia|].
    rewrite Hd. replace (Z.to_nat (i - from))
      with (S (Z.to_nat (i - (from + 1)))) by lia.
    reflexivity.
Qed.

Lemma candidates_length : forall q stored from,
  length (candidates q from stored) = length stored.
Proof.
  intros q. induction stored as [|x stored IH]; intros from; simpl;
    [reflexivity|]. rewrite IH. reflexivity.
Qed.

Lemma candidates_distinct : forall q stored from,
  NoDup (List.map snd (candidates q from stored)).
Proof.
  intros q. induction stored as [|x stored IH]; intros from; simpl;
    constructor; [|apply IH].
  intro Hin. apply in_map_iff in Hin. destruct Hin as (h & Hs & Hh).
  pose proof (proj1 (Forall_forall _ _)
                (candidates_rows q stored (from + 1)%Z) h Hh) as [Hr _].
  lia.
Qed.

(** The stored rows ranked for a query: strictly by distance, then by row
    number; every entry is a stored row with its distance. *)
Lemma ranked_rows : forall q stored,
  let ranked := sort_hits (candidates q 0 stored) in
  StronglySorted ranks_before ranked
  /\ length ranked = length stored
  /\ Forall (fun h => (0 <= snd h < Z.of_nat (length stored))%Z
                      /\ fst h = sqdist q (nth (Z.to_nat (snd h)) stored []))
            ranked.
Proof.
  intros q stored ranked. subst ranked.
  pose proof (sort_hits_perm (candidates q 0 stored)) as Hperm.
  split; [|split].
  - apply sorted_distinct_strict; [apply sort_hits_sorted|].
    eapply Permutation_NoDup;
      [apply Permutation_map, Permutation_sym, Hperm|].
    apply candidates_distinct.
  - rewrite (Permutation_length Hperm). apply candidates_length.
  - eapply Permutation_Forall; [apply Permutation_sym, Hperm|].
    eapply Forall_impl; [|apply candidates_rows].
    intros [dist i] [Hi Hd]. cbn [fst snd] in *.
    split; [rewrite Z.add_0_l in Hi; exact Hi|].
    rewrite Hd. rewrite Z.sub_0_r. reflexivity.
Qed.

Lemma combine_fst_snd : forall (A B : Type) (l : list (A * B)),
  combine (List.map fst l) (List.map snd l) = l.
Proof.
  induction l as [|[a b] l IH]; simpl; [reflexivity|].
  rewrite IH. reflexivity.
Qed.

End Ranking.
(* ===================================================================== *)
(** * Retrieval *)
(* ===================================================================== *)

Section Retrieval.

Variable V : TfidfVectorizer.

Lemma collect_filter : forall cs pairs acc,
  collect cs pairs acc
  = acc ++ List.map (to_result cs) (filter (valid cs) pairs).
Proof.
  intros cs. induction pairs as [|[dist idx] pairs IH]; intros acc.
  - simpl. rewrite app_nil_r. reflexivity.
  - cbn [collect filter]. unfold valid at 1. cbn [snd].
    destruct ((idx <? 0) || (idx >=? Z.of_nat (length cs))); cbn [negb].
    + apply IH.
    + rewrite IH. rewrite <- app_assoc. reflexivity.
Qed.

Lemma padding_skipped : forall cs n,
  filter (valid cs) (repeat Faiss.padding n) = [].
Proof. intros cs. induction n as [|n IH]; [reflexivity|exact IH]. Qed.

(** What a returning [retrieve] returns: the valid ones of the first
    [top_k] ranked rows, as results. *)
Lemma retrieve_returned : forall (self : Engine V) query top_k rs,
  retrieve self query top_k = inr rs ->
  exists ix q_vec,
    index self = Some ix
    /\ transform V (vectorizer self) query = inr q_vec
    /\ Faiss.search ix q_vec top_k
       = inr (List.map fst
                (Faiss.top (Z.to_nat top_k)
                   (Faiss.sort_hits (Faiss.candidates q_vec 0 (Faiss.xb ix)))),
              List.map snd
                (Faiss.top (Z.to_nat top_k)
                   (Faiss.sort_hits (Faiss.candidates q_vec 0 (Faiss.xb ix)))))
    /\ rs = List.map (to_result (chunks self))
              (filter (valid (chunks self))
                 (firstn (Z.to_nat top_k)
                    (Faiss.sort_hits
                       (Faiss.candidates q_vec 0 (Faiss.xb ix))))).
Proof.
  intros self query top_k rs. unfold retrieve.
  destruct (index self) as [ix|]; [|discriminate].
  destruct (chunks self) as [|c cs] eqn:Hcs; [discriminate|].
  rewrite <- Hcs.
  destruct (transform V (vectorizer self) query) as [e|q_vec];
    [discriminate|].
  cbn [bind].
  destruct (Faiss.search ix q_vec top_k) as [e|found] eqn:Hsearch;
    [discriminate|].
  cbn [bind ok]. intros [= <-].
  exists ix, q_vec.
  split; [reflexivity|]. split; [reflexivity|].
  rewrite Hsearch. unfold Faiss.search in Hsearch.
  destruct (negb (Nat.eqb (length q_vec) (Faiss.d ix))); [discriminate|].
  destruct (top_k <=? 0); [discriminate|].
  injection Hsearch as <-. split; [reflexivity|]. cbn [fst snd].
  rewrite combine_fst_snd, collect_filter. cbn [app].
  unfold Faiss.top. rewrite filter_app, padding_skipped, app_nil_r.
  reflexivity.
Qed.

Lemma knowledge_base_retrieves : forall (self : Engine V) ix query top_k,
  knowledge_base self ix -> 0 < top_k ->
  exists rs, retrieve self query top_k = inr rs.
Proof.
  intros self ix query top_k Hkb Hk. unfold retrieve.
  rewrite (kb_index Hkb).
  destruct (chunks self) as [|c cs] eqn:Hcs;
    [exfalso; exact (kb_chunks Hkb Hcs)|].
  destruct (kb_projects Hkb query) as (q_vec & -> & Hlen).
  cbn [bind]. unfold Faiss.search.
  rewrite Hlen, Nat.eqb_refl. cbn [negb].
  destruct (Z.leb_spec top_k 0); [lia|].
  eexists. reflexivity.
Qed.

Lemma sorted_map : forall (A B : Type) (R : A -> A -> Prop)
    (R' : B -> B -> Prop) (f : A -> B) l,
  (forall x y, R x y -> R' (f x) (f y)) ->
  StronglySorted R l -> StronglySorted R' (List.map f l).
Proof.
  intros A B R R' f l Hf H.
  induction H as [|a l Hl IH Hall]; simpl; constructor; [exact IH|].
  apply Forall_forall. intros y Hy. apply in_map_iff in Hy.
  destruct Hy as (x & <- & Hx). apply Hf.
  exact (proj1 (Forall_forall _ _) Hall x Hx).
Qed.

Lemma Forall_filter_both : forall (A : Type) (P : A -> Prop) f l,
  Forall P l -> Forall (fun x => f x = true /\ P x) (filter f l).
Proof.
  intros A P f l H. apply Forall_forall. intros x Hx.
  apply filter_In in Hx. destruct Hx as [Hin Hf].
  split; [exact Hf|]. exact (proj1 (Forall_forall _ _) H x Hin).
Qed.

End Retrieval.

(** C4.  The index search returns, for its first min(k, rows) entries, rows
    of the index in strictly ascending rank: by squared Euclidean distance
    to the query, equal distances by the lower row number first; each entry
    carries the plain squared distance of its row; the rest is padding.
    [retrieve] keeps that order: its results are the chunks of such a
    ranked list of rows, each scored with the squared distance of its row,
    so the scores ascend; and on a loaded knowledge base it returns for
    every query and positive [top_k]. *)
Theorem retrieve_ranked :
  forall (V : TfidfVectorizer) (self : Engine V) (query : str) (top_k : Z),
  (forall ix q k ds ids,
     Faiss.search ix q k = inr (ds, ids) ->
     exists found,
       combine ds ids
       = found ++ repeat Faiss.padding (Z.to_nat k - length found)
       /\ length found = Nat.min (Z.to_nat k) (Faiss.ntotal ix)
       /\ StronglySorted Faiss.ranks_before found
       /\ Forall (fun h =>
                    0 <= snd h < Z.of_nat (Faiss.ntotal ix)
                    /\ fst h = Faiss.sqdist q
                                 (nth (Z.to_nat (snd h)) (Faiss.xb ix) []))
                 found)
  /\ (forall rs,
        retrieve self query top_k = inr rs ->
        exists ix q_vec found,
          index self = Some ix
          /\ transform V (vectorizer self) query = inr q_vec
          /\ rs = List.map (to_result (chunks self)) found
          /\ StronglySorted Faiss.ranks_before found
          /\ Forall (fun h =>
                       0 <= snd h < Z.of_nat (length (chunks self))
                       /\ snd h < Z.of_nat (Faiss.ntotal ix)
                       /\ fst h = Faiss.sqdist q_vec
                                    (nth (Z.to_nat (snd h)) (Faiss.xb ix) []))
                    found
          /\ StronglySorted (fun a b => (score a <= score b)%Q) rs)
  /\ (forall ix,
        knowledge_base self ix -> 0 < top_k ->
        exists rs, retrieve self query top_k = inr rs).
Proof.
  intros V self query top_k. split; [|split].
  - intros ix q k ds ids. unfold Faiss.search.
    destruct (negb (Nat.eqb (length q) (Faiss.d ix))); [discriminate|].
    destruct (k <=? 0); [discriminate|].
    intros [= <- <-].
    destruct (ranked_rows q (Faiss.xb ix)) as (Hsorted & Hlen & Hrows).
    cbv zeta in Hsorted, Hlen, Hrows.
    set (ranked := Faiss.sort_hits _) in *.
    exists (firstn (Z.to_nat k) ranked).
    rewrite combine_fst_snd. unfold Faiss.top.
    rewrite length_firstn, Hlen. unfold Faiss.ntotal.
    split; [f_equal; f_equal; lia|]. split; [reflexivity|].
    split; [apply sorted_firstn; exact Hsorted|].
    apply Forall_firstn. exact Hrows.
  - intros rs Hrs.
    destruct (retrieve_returned _ _ _ Hrs) as (ix & q_vec & Hix & Hq & _ & ->).
    destruct (ranked_rows q_vec (Faiss.xb ix)) as (Hsorted & Hlen & Hrows).
    cbv zeta in Hsorted, Hlen, Hrows.
    set (ranked := Faiss.sort_hits _) in *.
    assert (Hfound : StronglySorted Faiss.ranks_before
                       (filter (valid (chunks self))
                          (firstn (Z.to_nat top_k) ranked)))
      by (apply sorted_filter, sorted_firstn; exact Hsorted).
    exists ix, q_vec, (filter (valid (chunks self))
                         (firstn (Z.to_nat top_k) ranked)).
    split; [exact Hix|]. split; [exact Hq|]. split; [reflexivity|].
    split; [exact Hfound|]. split.
    + eapply Forall_impl;
        [|apply Forall_filter_both, Forall_firstn; exact Hrows].
      intros [dist i] [Hvalid [Hi Hd]]. unfold valid in Hvalid.
      cbn [fst snd] in *. unfold Faiss.ntotal.
      apply negb_true_iff, orb_false_iff in Hvalid.
      destruct Hvalid as [H0 Hn].
      apply Z.ltb_ge in H0. rewrite Z.geb_leb in Hn. apply Z.leb_gt in Hn.
      split; [split; assumption|]. split; [apply Hi|exact Hd].
    + eapply sorted_map; [|exact Hfound].
      intros x y [Hlt|[Heq _]]; cbn; lra.
  - intros ix. apply knowledge_base_retrieves.
Qed.

Lemma retrieve_ranked_witness :
  let e0 := Stub.engine Stub.count_vectorizer 2 0 in
  let e1 := fst (ingest_text (lit "apple banana apple orange car truck")
                   (lit "fruit") e0) in
  retrieve e1 (lit "apple") 3
  = inr [ {| chunk := lit "apple banana"; score := 1%Q |};
          {| chunk := lit "apple orange"; score := 1%Q |};
          {| chunk := lit "car truck"; score := 3%Q |} ]
  /\ exists ix q_vec found,
       index e1 = Some ix
       /\ transform Stub.count_vectorizer (vectorizer e1) (lit "apple")
          = inr q_vec
       /\ [ {| chunk := lit "apple banana"; score := 1%Q |};
            {| chunk := lit "apple orange"; score := 1%Q |};
            {| chunk := lit "car truck"; score := 3%Q |} ]
          = List.map (to_result (chunks e1)) found
       /\ StronglySorted Faiss.ranks_before found.
Proof.
  cbv zeta.
  assert (Hrs : retrieve
                  (fst (ingest_text
                          (lit "apple banana apple orange car truck")
                          (lit "fruit")
                          (Stub.engine Stub.count_vectorizer 2 0)))
                  (lit "apple") 3
                = inr [ {| chunk := lit "apple banana"; score := 1%Q |};
                        {| chunk := lit "apple orange"; score := 1%Q |};
                        {| chunk := lit "car truck"; score := 3%Q |} ])
    by (vm_compute; reflexivity).
  split; [exact Hrs|].
  destruct (proj1 (proj2 (retrieve_ranked _ (lit "apple") 3)) _ Hrs)
    as (ix & q_vec & found & Hix & Hq & Hmap & Hsorted & _).
  exists ix, q_vec, found. repeat split; assumption.
Defined.

(** C5.  On a loaded knowledge base with [C] chunks and for [top_k > C],
    [retrieve] returns, and returns at most [C] results: the index search
    answers with [top_k] row numbers, [C] of them real and the remaining
    [top_k - C] the padding [-1], which the loop of [retrieve] skips. *)
Theorem retrieve_beyond_chunk_count :
  forall (V : TfidfVectorizer) (self : Engine V) (ix : Faiss.IndexFlatL2)
         (query : str) (top_k : Z),
  knowledge_base self ix ->
  top_k > Z.of_nat (length (chunks self)) ->
  exists q_vec ds ids real rs,
    transform V (vectorizer self) query = inr q_vec
    /\ Faiss.search ix q_vec top_k = inr (ds, ids)
    /\ ids = real
             ++ repeat (-1) (Z.to_nat top_k - length (chunks self))
    /\ length real = length (chunks self)
    /\ retrieve self query top_k = inr rs
    /\ (length rs <= length (chunks self))%nat.
Proof.
  intros V self ix query top_k Hkb Hk.
  destruct (@knowledge_base_retrieves V self ix query top_k Hkb)
    as [rs Hrs]; [lia|].
  destruct (retrieve_returned _ _ _ Hrs)
    as (ix' & q_vec & Hix & Hq & Hsearch & Hmap).
  rewrite (kb_index Hkb) in Hix. injection Hix as <-.
  destruct (ranked_rows q_vec (Faiss.xb ix)) as (_ & Hlen & _).
  cbv zeta in Hlen. fold (Faiss.ntotal ix) in Hlen.
  rewrite (kb_rows Hkb) in Hlen.
  set (ranked := Faiss.sort_hits _) in *.
  exists q_vec, (List.map fst (Faiss.top (Z.to_nat top_k) ranked)),
    (List.map snd (Faiss.top (Z.to_nat top_k) ranked)),
    (List.map snd ranked), rs.
  split; [exact Hq|]. split; [exact Hsearch|]. split; [|split; [|split]].
  - unfold Faiss.top. rewrite List.map_app, map_repeat.
    rewrite firstn_all2 by lia. rewrite Hlen. reflexivity.
  - rewrite length_map. exact Hlen.
  - exact Hrs.
  - rewrite Hmap, length_map.
    eapply Nat.le_trans; [apply filter_length_le|].
    rewrite length_firstn. lia.
Qed.

Lemma retrieve_beyond_chunk_count_witness :
  let e0 := Stub.engine Stub.count_vectorizer 2 0 in
  let e1 := fst (ingest_text (lit "apple banana apple orange car truck")
                   (lit "fruit") e0) in
  length (chunks e1) = 3%nat
  /\ (exists ix, knowledge_base e1 ix)
  /\ exists rs,
       retrieve e1 (lit "apple") 8 = inr rs /\ (length rs <= 3)%nat.
Proof.
  cbv zeta. split; [vm_compute; reflexivity|].
  assert (Hin : ingest_text (lit "apple banana apple orange car truck")
                  (lit "fruit") (Stub.engine Stub.count_vectorizer 2 0)
                = (fst (ingest_text
                          (lit "apple banana apple orange car truck")
                          (lit "fruit")
                          (Stub.engine Stub.count_vectorizer 2 0)),
                   inr 3))
    by (vm_compute; reflexivity).
  destruct (ingest_text_returned _ _ _ count_vectorizer_fits Hin)
    as (_ & ix & Hkb).
  split; [exists ix; exact Hkb|].
  destruct (@retrieve_beyond_chunk_count _ _ ix (lit "apple") 8 Hkb)
    as (q_vec & ds & ids & real & rs & _ & _ & _ & _ & Hrs & Hle).
  - vm_compute. reflexivity.
  - exists rs. split; [exact Hrs|]. exact Hle.
Defined.

(* ===================================================================== *)
(** * More on the chunker *)
(* ===================================================================== *)

Import Windowing.

Section ChunkerWindows.

Variable words : list str.
Hypothesis Hwords : Forall word words.

Variables size step : nat.
Hypothesis Hstep : (0 < step <= size)%nat.

Lemma chunk_count_last : forall n, (n <= size)%nat -> chunk_count n size step = 1%nat.
Proof.
  intros n Hn. unfold chunk_count.
  replace (n - size)%nat with 0%nat by lia. cbn [Nat.add].
  rewrite Nat.div_small by lia. reflexivity.
Qed.

Lemma chunk_count_next : forall n, (size < n)%nat ->
  chunk_count n size step = S (chunk_count (n - step) size step).
Proof.
  intros n Hn. unfold chunk_count. f_equal.
  replace (n - size + (step - 1))%nat
    with ((n - size - 1) + 1 * step)%nat by lia.
  rewrite Nat.div_add by lia. rewrite Nat.add_1_r. f_equal.
  destruct (Nat.le_gt_cases step (n - size)) as [Hge|Hlt].
  - f_equal. lia.
  - replace (n - step - size)%nat with 0%nat by lia. cbn [Nat.add].
    rewrite !Nat.div_small by lia. reflexivity.
Qed.

Lemma window_nonempty : forall s,
  (s < length words)%nat ->
  firstn size (skipn s words) <> [].
Proof.
  intros s Hs E. apply (f_equal (@length _)) in E.
  rewrite length_firstn, length_skipn in E. simpl in E. lia.
Qed.

(** The loop from word [s] on: one window every [step] words. *)
Lemma chunk_loop_windows : forall fuel s,
  (s < length words)%nat ->
  (length words - s <= fuel)%nat ->
  chunk_loop words (Z.of_nat size)
    (range_from fuel (Z.of_nat s) (Z.of_nat (length words)) (Z.of_nat step))
    []
  = List.map (fun j => join (lit " ")
                         (firstn size (skipn (s + j * step) words)))
      (seq 0 (chunk_count (length words - s) size step)).
Proof.
  induction fuel as [|fuel IH]; intros s Hs Hfuel; [lia|].
  cbn [range_from].
  destruct (Z.ltb_spec (Z.of_nat s) (Z.of_nat (length words))); [|lia].
  cbn [chunk_loop]. cbv zeta. rewrite slice_window.
  assert (Hwin : Forall word (firstn size (skipn s words)))
    by (apply Forall_window; exact Hwords).
  rewrite (strip_join Hwin).
  rewrite (truthy_nonempty
             (join_nonempty (lit " ") (window_nonempty Hs) Hwin)).
  destruct (Z.geb_spec (Z.of_nat s + Z.of_nat size)
              (Z.of_nat (length words))) as [Hend|Hmore].
  - rewrite chunk_count_last by lia. cbn. rewrite Nat.add_0_r.
    reflexivity.
  - rewrite chunk_loop_acc.
    replace (Z.of_nat s + Z.of_nat step) with (Z.of_nat (s + step)) by lia.
    rewrite IH by lia.
    rewrite (chunk_count_next (n := length words - s)) by lia.
    replace (length words - s - step)%nat
      with (length words - (s + step))%nat by lia.
    cbn [seq List.map app]. rewrite Nat.add_0_r. f_equal.
    rewrite <- seq_shift, map_map. apply map_ext. intro j.
    do 3 f_equal. cbn [Nat.mul]. lia.
Qed.

Lemma windows_lt : forall k,
  (k < chunk_count (length words) size step)%nat ->
  words <> [] ->
  (k * step < length words)%nat.
Proof.
  clear Hwords. intros k Hk Hne. unfold chunk_count in Hk.
  assert (Hlen : (0 < length words)%nat)
    by (destruct words; [contradiction|simpl; lia]).
  destruct (Nat.le_gt_cases (length words) size) as [Hle|Hgt].
  - replace (length words - size)%nat with 0%nat in Hk by lia.
    cbn [Nat.add] in Hk. rewrite Nat.div_small in Hk by lia.
    replace k with 0%nat by lia. simpl. exact Hlen.
  - pose proof (Nat.div_mod_eq (length words - size + (step - 1)) step)
      as Hdiv.
    pose proof (Nat.mod_upper_bound
                  (length words - size + (step - 1)) step) as Hmod.
    set (c := ((length words - size + (step - 1)) / step)%nat) in *.
    assert (k * step <= c * step)%nat by (apply Nat.mul_le_mono_r; lia).
    nia.
Qed.

Lemma windows_full : forall k,
  (S k < chunk_count (length words) size step)%nat ->
  (k * step + size < length words)%nat.
Proof.
  intros k Hk. unfold chunk_count in Hk.
  pose proof (Nat.div_mod_eq (length words - size + (step - 1)) step)
    as Hdiv.
  pose proof (Nat.mod_upper_bound
                (length words - size + (step - 1)) step) as Hmod.
  set (c := ((length words - size + (step - 1)) / step)%nat) in *.
  assert (S k * step <= c * step)%nat by (apply Nat.mul_le_mono_r; lia).
  nia.
Qed.

End ChunkerWindows.

Lemma chunk_text_windows_nat : forall (S O : Z) (text : str),
  0 < S -> 0 <= O -> split text <> [] ->
  Chunker._chunk_text S O text
  = windows (split text) (Z.to_nat S) (Z.to_nat (Z.max 1 (S - O))).
Proof.
  intros S O text HS HO Hne. unfold Chunker._chunk_text.
  pose proof (split_words text) as Hw.
  destruct (split text) as [|w ws] eqn:E; [contradiction|].
  unfold range0. rewrite Nat2Z.id.
  assert (Hstep : (0 < Z.to_nat (Z.max 1 (S - O)) <= Z.to_nat S)%nat) by lia.
  pose proof (@chunk_loop_windows (w :: ws) Hw (Z.to_nat S)
                (Z.to_nat (Z.max 1 (S - O))) Hstep (length (w :: ws)) 0%nat)
    as H.
  rewrite !Z2Nat.id in H by lia. change (Z.of_nat 0) with 0 in H.
  rewrite H by (simpl; lia).
  rewrite Nat.sub_0_r. reflexivity.
Qed.

Lemma slice_head : forall (A : Type) (l : list A) (S : Z),
  0 <= S -> slice l 0 (0 + S) = firstn (Z.to_nat S) l.
Proof.
  intros A l S HS. pose proof (slice_window l 0 (Z.to_nat S)) as H.
  rewrite Z2Nat.id in H by lia. exact H.
Qed.

(** X1.  With a positive chunk size the chunker returns no chunk exactly
    for a text without a word, whatever the overlap. *)
Theorem chunk_text_empty_iff : forall (S O : Z) (text : str),
  0 < S ->
  (Chunker._chunk_text S O text = [] <-> ink text = false).
Proof.
  intros S O text HS. rewrite ink_wordless. unfold wordless.
  unfold Chunker._chunk_text.
  pose proof (split_words text) as Hw.
  destruct (split text) as [|w ws] eqn:E; [split; reflexivity|].
  cbn [negb]. split; [|discriminate]. intro Hnil. exfalso.
  unfold range0 in Hnil. rewrite Nat2Z.id in Hnil.
  cbn [length range_from] in Hnil.
  destruct (Z.ltb_spec 0 (Z.of_nat (Datatypes.S (length ws)))); [|lia].
  cbn [chunk_loop] in Hnil. cbv zeta in Hnil.
  rewrite slice_head in Hnil by lia.
  assert (Hwin : Forall word (firstn (Z.to_nat S) (w :: ws))).
  { change (w :: ws) with (skipn 0 (w :: ws)).
    apply Forall_window. exact Hw. }
  assert (Hne : firstn (Z.to_nat S) (w :: ws) <> []).
  { destruct (Z.to_nat S) eqn:ES; [lia|discriminate]. }
  rewrite (strip_join Hwin) in Hnil.
  rewrite (truthy_nonempty (join_nonempty (lit " ") Hne Hwin)) in Hnil.
  destruct (_ >=? _) in Hnil; [discriminate|].
  rewrite chunk_loop_acc in Hnil. discriminate.
Qed.

Lemma chunk_text_empty_iff_witness :
  0 < 3
  /\ (Chunker._chunk_text 3 5 [32; 10; 9]%N = [] <-> ink [32; 10; 9]%N = false).
Proof.
  assert (H : 0 < 3) by lia.
  split; [exact H|]. exact (@chunk_text_empty_iff 3 5 [32; 10; 9]%N H).
Defined.

Lemma chunk_text_short : forall (S O : Z) (text : str),
  (0 < length (split text))%nat ->
  Z.of_nat (length (split text)) <= S ->
  Chunker._chunk_text S O text = [join (lit " ") (split text)].
Proof.
  intros S O text Hne HS. unfold Chunker._chunk_text.
  pose proof (split_words text) as Hw.
  destruct (split text) as [|w ws] eqn:E; [simpl in Hne; lia|].
  unfold range0. rewrite Nat2Z.id. cbn [length range_from].
  destruct (Z.ltb_spec 0 (Z.of_nat (Datatypes.S (length ws)))); [|lia].
  cbn [chunk_loop]. cbv zeta.
  rewrite slice_head by (cbn [length] in HS; lia).
  rewrite firstn_all2 by (cbn [length] in *; lia).
  rewrite (strip_join Hw).
  rewrite (truthy_nonempty
             (@join_nonempty (lit " ") (w :: ws) ltac:(discriminate) Hw)).
  destruct (Z.geb_spec (0 + S) (Z.of_nat (length (w :: ws)))); [reflexivity|].
  cbn [length] in *. lia.
Qed.

(** X2.  A text of at least one and at most [chunk_size_words] words is
    returned as one chunk, its words joined with single spaces, whatever the
    overlap. *)
Theorem chunk_text_single : forall (S O : Z) (text : str),
  (0 < length (split text))%nat ->
  Z.of_nat (length (split text)) <= S ->
  Chunker._chunk_text S O text = [join (lit " ") (split text)].
Proof. exact chunk_text_short. Qed.

Lemma chunk_text_single_witness :
  (0 < length (split (lit "  one   two three ")))%nat
  /\ Z.of_nat (length (split (lit "  one   two three "))) <= 3
  /\ Chunker._chunk_text 3 7 (lit "  one   two three ")
     = [lit "one two three"].
Proof.
  assert (H1 : (0 < length (split (lit "  one   two three ")))%nat)
    by (vm_compute; lia).
  assert (H2 : Z.of_nat (length (split (lit "  one   two three "))) <= 3)
    by (vm_compute; discriminate).
  split; [exact H1|]. split; [exact H2|].
  exact (@chunk_text_single 3 7 (lit "  one   two three ") H1 H2).
Defined.

(** X3.  For a chunk size [S >= 1], an overlap [O >= 0] and a text of
    [N >= 1] words, with [step = max(1, S - O)]: the chunks are the windows
    of [S] words starting at the words 0, step, 2 step, ..., each joined with
    single spaces, and there are 1 + ceil(max(0, N - S) / step) of them. *)
Theorem chunk_text_windows : forall (S O : Z) (text : str),
  0 < S -> 0 <= O -> (0 < length (split text))%nat ->
  let step := Z.to_nat (Z.max 1 (S - O)) in
  let n := length (split text) in
  Chunker._chunk_text S O text
  = List.map (fun k => join (lit " ")
                         (firstn (Z.to_nat S) (skipn (k * step) (split text))))
      (seq 0 (Datatypes.S ((n - Z.to_nat S + (step - 1)) / step)))
  /\ length (Chunker._chunk_text S O text)
     = Datatypes.S ((n - Z.to_nat S + (step - 1)) / step).
Proof.
  intros S O text HS HO Hne step n.
  assert (Hne' : split text <> [])
    by (destruct (split text); [simpl in Hne; lia|discriminate]).
  rewrite (@chunk_text_windows_nat S O text HS HO Hne').
  unfold windows, window, chunk_count. split; [reflexivity|].
  rewrite length_map, length_seq. reflexivity.
Qed.

Lemma chunk_text_windows_witness :
  0 < 3 /\ 0 <= 1
  /\ (0 < length (split (lit "a b c d e f g h")))%nat
  /\ Chunker._chunk_text 3 1 (lit "a b c d e f g h")
     = [lit "a b c"; lit "c d e"; lit "e f g"; lit "g h"]
  /\ length (Chunker._chunk_text 3 1 (lit "a b c d e f g h")) = 4%nat.
Proof.
  assert (H1 : 0 < 3) by lia. assert (H2 : 0 <= 1) by lia.
  assert (H3 : (0 < length (split (lit "a b c d e f g h")))%nat)
    by (vm_compute; lia).
  split; [exact H1|]. split; [exact H2|]. split; [exact H3|].
  destruct (@chunk_text_windows 3 1 (lit "a b c d e f g h") H1 H2 H3)
    as [Hall Hlen].
  split; [rewrite Hall; vm_compute; reflexivity|].
  rewrite Hlen. vm_compute. reflexivity.
Defined.

Lemma nth_error_map_seq : forall (A : Type) (f : nat -> A) n k a,
  nth_error (List.map f (seq 0 n)) k = Some a -> (k < n)%nat /\ a = f k.
Proof.
  intros A f n k a H.
  assert (Hk : (k < length (List.map f (seq 0 n)))%nat)
    by (apply nth_error_Some; rewrite H; discriminate).
  rewrite length_map, length_seq in Hk.
  split; [exact Hk|].
  rewrite (nth_error_nth' _ (f 0%nat)) in H
    by (rewrite length_map, length_seq; exact Hk).
  injection H as <-.
  rewrite (map_nth f (seq 0 n) 0%nat k). rewrite seq_nth by exact Hk.
  reflexivity.
Qed.

(** X4.  For [0 <= O < S], two consecutive chunks overlap in exactly [O]
    words: the earlier chunk has [S] words, and its words after the first
    [S - O] are the first [O] words of the later chunk. *)
Theorem chunk_text_overlap :
  forall (S O : Z) (text : str) (k : nat) (a b : str),
  0 <= O < S ->
  nth_error (Chunker._chunk_text S O text) k = Some a ->
  nth_error (Chunker._chunk_text S O text) (Datatypes.S k) = Some b ->
  length (split a) = Z.to_nat S
  /\ skipn (Z.to_nat (S - O)) (split a) = firstn (Z.to_nat O) (split b)
  /\ length (firstn (Z.to_nat O) (split b)) = Z.to_nat O.
Proof.
  intros S O text k a b HSO Ha Hb.
  destruct (split text) as [|w ws] eqn:E.
  { unfold Chunker._chunk_text in Ha. rewrite E in Ha.
    destruct k; discriminate. }
  assert (Hne : split text <> []) by (rewrite E; discriminate).
  rewrite (@chunk_text_windows_nat S O text ltac:(lia) ltac:(lia) Hne)
    in Ha, Hb.
  rewrite Z.max_r in Ha, Hb by lia.
  pose proof (split_words text) as Hw.
  assert (Hstep : (0 < Z.to_nat (S - O) <= Z.to_nat S)%nat) by lia.
  unfold windows in Ha, Hb.
  apply nth_error_map_seq in Ha. destruct Ha as [_ ->].
  apply nth_error_map_seq in Hb. destruct Hb as [Hk ->].
  pose proof (@windows_full (split text) (Z.to_nat S) (Z.to_nat (S - O))
                Hstep k Hk) as Hfull.
  unfold window. rewrite !split_join by (apply Forall_window; exact Hw).
  set (st := Z.to_nat (S - O)) in *. set (sz := Z.to_nat S) in *.
  assert (HO : Z.to_nat O = (sz - st)%nat) by lia.
  split; [|split].
  - rewrite length_firstn, length_skipn. lia.
  - rewrite skipn_firstn_comm, skipn_skipn, firstn_firstn.
    rewrite HO. replace (Nat.min (sz - st) sz) with (sz - st)%nat by lia.
    reflexivity.
  - rewrite firstn_firstn, length_firstn, length_skipn.
    cbn [Nat.mul] in *. lia.
Qed.

Lemma chunk_text_overlap_witness :
  let chunks := Chunker._chunk_text 3 1 (lit "The cat sat. The dog ran.") in
  0 <= 1 < 3
  /\ nth_error chunks 0 = Some (lit "The cat sat.")
  /\ nth_error chunks 1 = Some (lit "sat. The dog")
  /\ skipn (Z.to_nat (3 - 1)) (split (lit "The cat sat."))
     = firstn (Z.to_nat 1) (split (lit "sat. The dog")).
Proof.
  cbv zeta.
  assert (H : 0 <= 1 < 3) by lia.
  assert (Ha : nth_error
                 (Chunker._chunk_text 3 1 (lit "The cat sat. The dog ran."))
                 0 = Some (lit "The cat sat."))
    by (vm_compute; reflexivity).
  assert (Hb : nth_error
                 (Chunker._chunk_text 3 1 (lit "The cat sat. The dog ran."))
                 1 = Some (lit "sat. The dog"))
    by (vm_compute; reflexivity).
  split; [exact H|]. split; [exact Ha|]. split; [exact Hb|].
  exact (proj1 (proj2 (@chunk_text_overlap 3 1 _ 0 _ _ H Ha Hb))).
Defined.

(** X5.  For [S >= 1] and [O >= 0], every chunk has between 1 and [S]
    words, is exactly its words joined with single spaces (so it carries no
    white space at its ends and none but single spaces inside), and is left
    as it is by the chunker: chunking a chunk returns that chunk alone. *)
Theorem chunk_text_chunks : forall (S O : Z) (text c : str),
  0 < S -> 0 <= O ->
  In c (Chunker._chunk_text S O text) ->
  (1 <= length (split c) <= Z.to_nat S)%nat
  /\ join (lit " ") (split c) = c
  /\ Chunker._chunk_text S O c = [c].
Proof.
  intros S O text c HS HO Hin.
  destruct (split text) as [|w ws] eqn:E.
  { unfold Chunker._chunk_text in Hin. rewrite E in Hin. contradiction. }
  assert (Hne : split text <> []) by (rewrite E; discriminate).
  rewrite (@chunk_text_windows_nat S O text HS HO Hne) in Hin.
  pose proof (split_words text) as Hw.
  assert (Hstep : (0 < Z.to_nat (Z.max 1 (S - O)) <= Z.to_nat S)%nat) by lia.
  unfold windows in Hin. apply in_map_iff in Hin.
  destruct Hin as (k & <- & Hk). apply in_seq in Hk.
  pose proof (@windows_lt (split text) (Z.to_nat S)
                (Z.to_nat (Z.max 1 (S - O))) Hstep k (proj2 Hk) Hne) as Hlt.
  unfold window.
  set (win := firstn (Z.to_nat S)
                (skipn (k * Z.to_nat (Z.max 1 (S - O))) (split text))).
  assert (Hwin : Forall word win) by (apply Forall_window; exact Hw).
  assert (Hlen : (1 <= length win <= Z.to_nat S)%nat).
  { unfold win. rewrite length_firstn, length_skipn. lia. }
  rewrite (split_join Hwin).
  split; [exact Hlen|]. split; [reflexivity|].
  rewrite (@chunk_text_short S O (join (lit " ") win));
    rewrite (split_join Hwin); [reflexivity|lia|lia].
Qed.

Lemma chunk_text_chunks_witness :
  0 < 3 /\ 0 <= 1
  /\ In (lit "sat. The dog")
       (Chunker._chunk_text 3 1 (lit "The  cat sat.  The dog ran."))
  /\ Chunker._chunk_text 3 1 (lit "sat. The dog") = [lit "sat. The dog"].
Proof.
  assert (H1 : 0 < 3) by lia. assert (H2 : 0 <= 1) by lia.
  assert (H3 : In (lit "sat. The dog")
                 (Chunker._chunk_text 3 1
                    (lit "The  cat sat.  The dog ran.")))
    by (vm_compute; right; left; reflexivity).
  split; [exact H1|]. split; [exact H2|]. split; [exact H3|].
  exact (proj2 (proj2 (@chunk_text_chunks 3 1 _ _ H1 H2 H3))).
Defined.

(* ===================================================================== *)
(** * More on ingestion: texts, PDF pages, the key *)
(* ===================================================================== *)

Lemma split_aux_space_app : forall a c b cur,
  is_space c = true ->
  split_aux cur (a ++ c :: b) = split_aux cur a ++ split b.
Proof.
  unfold split. induction a as [|x a IH]; intros c b cur Hc.
  - cbn [app split_aux]. rewrite Hc. destruct cur; reflexivity.
  - cbn [app split_aux]. destruct (is_space x).
    + destruct cur; rewrite IH by exact Hc; reflexivity.
    + apply IH. exact Hc.
Qed.

(** Joining with newlines keeps the words of every part apart. *)
Lemma split_join_nl : forall parts,
  split (join nl parts) = flat_map split parts.
Proof.
  induction parts as [|p parts IH]; [reflexivity|].
  destruct parts as [|q parts].
  - cbn [join flat_map]. rewrite app_nil_r. reflexivity.
  - rewrite join_cons2. unfold nl at 1. cbn [app flat_map].
    unfold split at 1. rewrite split_aux_space_app by reflexivity.
    fold (split p). rewrite IH. reflexivity.
Qed.

Lemma pdf_text_split : forall pages,
  split (_extract_text_from_pdf pages) = flat_map page_words pages.
Proof.
  intro pages. unfold _extract_text_from_pdf. rewrite split_join_nl.
  induction pages as [|page pages IH]; [reflexivity|].
  destruct page as [[|c t]|]; cbn [flat_map app page_words];
    [exact IH| |exact IH].
  rewrite IH. reflexivity.
Qed.

Lemma pages_without_ink : forall pages : list (option str),
  Forall (fun page_text =>
            match page_text with
            | Some t => ink t = false
            | None => True
            end) pages ->
  flat_map page_words pages = [].
Proof.
  induction 1 as [|[t|] pages Ht _ IH]; cbn [flat_map page_words];
    [reflexivity| |exact IH].
  rewrite IH, app_nil_r. rewrite ink_wordless in Ht.
  unfold wordless in Ht. destruct (split t); [reflexivity|discriminate].
Qed.

Section IngestFacts.

Variable V : TfidfVectorizer.

Lemma ingest_pdf_rebuilt : forall path pages (self : Engine V),
  fv_exists path = true ->
  fv_suffix_lower path = lit ".pdf" ->
  fv_pdf path = inr pages ->
  ingest_file path self
  = if blank (_extract_text_from_pdf pages)
    then (self,
          raise (ValueError (lit "No text could be extracted from the file.")))
    else rebuilt (fv_name path) (_extract_text_from_pdf pages) self.
Proof.
  intros path pages self Hex Hsuf Hpdf. unfold ingest_file.
  rewrite Hex, Hsuf, Hpdf. cbn.
  destruct (blank (_extract_text_from_pdf pages)); [reflexivity|].
  apply build_index_rebuilt.
Qed.

(** A text enters ingestion through its words only. *)
Lemma rebuilt_words : forall name t1 t2 (self : Engine V),
  split t1 = split t2 -> rebuilt name t1 self = rebuilt name t2 self.
Proof.
  intros name t1 t2 self H.
  unfold rebuilt, _chunk_text, Chunker._chunk_text. rewrite H. reflexivity.
Qed.

Lemma blank_words : forall t1 t2,
  split t1 = split t2 -> blank t1 = blank t2.
Proof.
  intros t1 t2 H. rewrite !blank_wordless. unfold wordless. rewrite H.
  reflexivity.
Qed.

Lemma ingest_text_same_words : forall t1 t2 source (self : Engine V),
  split t1 = split t2 ->
  ingest_text t1 source self = ingest_text t2 source self.
Proof.
  intros t1 t2 source self H. rewrite !ingest_text_rebuilt.
  rewrite (@blank_words t1 t2 H), (@rebuilt_words source t1 t2 self H).
  reflexivity.
Qed.

End IngestFacts.

(** X6.  The text extracted from a PDF has exactly the words of its pages,
    page after page: a page without text ([None] or empty) adds nothing, and
    the last word of a page is never glued to the first word of the next. *)
Theorem pdf_text_words : forall pages : list (option str),
  split (_extract_text_from_pdf pages) = flat_map page_words pages.
Proof. exact pdf_text_split. Qed.

(** X7.  For an existing ".pdf" file that opens and of whose pages none
    yields a character other than white space (a scanned document),
    [ingest_file] raises the [ValueError] "No text could be extracted from
    the file." and leaves the engine as it was. *)
Theorem ingest_pdf_without_text :
  forall (V : TfidfVectorizer) (self : Engine V) (path : FileView)
         (pages : list (option str)),
  fv_exists path = true ->
  fv_suffix_lower path = lit ".pdf" ->
  fv_pdf path = inr pages ->
  Forall (fun page_text =>
            match page_text with
            | Some t => ink t = false
            | None => True
            end) pages ->
  ingest_file path self
  = (self, inl (ValueError (lit "No text could be extracted from the file."))).
Proof.
  intros V self path pages Hex Hsuf Hpdf Hpages.
  rewrite (ingest_pdf_rebuilt _ self Hex Hsuf Hpdf).
  rewrite blank_wordless. unfold wordless. rewrite pdf_text_split.
  rewrite (pages_without_ink Hpages). reflexivity.
Qed.

Lemma ingest_pdf_without_text_witness :
  let scan :=
    {| fv_str := lit "scan.pdf";
       fv_name := lit "scan.pdf";
       fv_suffix := lit ".pdf";
       fv_exists := true;
       fv_bytes := inr [37; 80; 68; 70]%N;
       fv_pdf := inr [None; Some []; Some [32; 10]%N; None] |} in
  ingest_file scan (Stub.engine Stub.count_vectorizer 3 1)
  = (Stub.engine Stub.count_vectorizer 3 1,
     inl (ValueError (lit "No text could be extracted from the file."))).
Proof.
  cbv zeta.
  apply ingest_pdf_without_text
    with (pages := [None; Some []; Some [32; 10]%N; None]);
    try reflexivity.
  repeat constructor.
Defined.

(** X8.  A PDF is ingested as [ingest_text] ingests, under the file's
    name, any text with the words of its pages in order.  Both always
    leave the same engine.  When there is at least one word they also
    return or raise the same.  When there is none, both raise a
    [ValueError] and leave the engine as it was, with different messages:
    "No text could be extracted from the file." for the file and "Input
    text is empty." for the text. *)
Theorem ingest_pdf_as_text :
  forall (V : TfidfVectorizer) (self : Engine V) (path : FileView)
         (pages : list (option str)) (text : str),
  fv_exists path = true ->
  fv_suffix_lower path = lit ".pdf" ->
  fv_pdf path = inr pages ->
  split text = flat_map page_words pages ->
  fst (ingest_file path self) = fst (ingest_text text (fv_name path) self)
  /\ (split text <> [] ->
      ingest_file path self = ingest_text text (fv_name path) self)
  /\ (split text = [] ->
      ingest_file path self
      = (self,
         inl (ValueError (lit "No text could be extracted from the file.")))
      /\ ingest_text text (fv_name path) self
         = (self, inl (ValueError (lit "Input text is empty.")))).
Proof.
  intros V self path pages text Hex Hsuf Hpdf Hwords.
  rewrite (ingest_pdf_rebuilt _ self Hex Hsuf Hpdf), ingest_text_rebuilt.
  assert (H : split (_extract_text_from_pdf pages) = split text)
    by (rewrite pdf_text_split; symmetry; exact Hwords).
  rewrite (@blank_words _ _ H), (@rebuilt_words V (fv_name path) _ _ self H).
  rewrite blank_wordless. unfold wordless.
  destruct (split text) as [|w ws].
  - split; [reflexivity|]. split; [contradiction|].
    intros _. split; reflexivity.
  - split; [reflexivity|]. split; [reflexivity|discriminate].
Qed.

Lemma ingest_pdf_as_text_witness :
  let doc :=
    {| fv_str := lit "uploads/doc.pdf";
       fv_name := lit "doc.pdf";
       fv_suffix := lit ".PDF";
       fv_exists := true;
       fv_bytes := inr [37; 80; 68; 70]%N;
       fv_pdf := inr [Some (lit "apple banana"); None;
                      Some (lit "car  truck")] |} in
  let e0 := Stub.engine Stub.count_vectorizer 3 1 in
  split (lit "apple banana car truck")
  = flat_map page_words [Some (lit "apple banana"); None;
                         Some (lit "car  truck")]
  /\ split (lit "apple banana car truck") <> []
  /\ ingest_file doc e0
     = ingest_text (lit "apple banana car truck") (lit "doc.pdf") e0
  /\ snd (ingest_file doc e0) = inr 2.
Proof.
  cbv zeta.
  assert (H1 : split (lit "apple banana car truck")
               = flat_map page_words [Some (lit "apple banana"); None;
                                      Some (lit "car  truck")])
    by (vm_compute; reflexivity).
  assert (H2 : split (lit "apple banana car truck") <> [])
    by (vm_compute; discriminate).
  split; [exact H1|]. split; [exact H2|].
  split; [|vm_compute; reflexivity].
  exact (proj1 (proj2
           (@ingest_pdf_as_text Stub.count_vectorizer
              (Stub.engine Stub.count_vectorizer 3 1)
              {| fv_str := lit "uploads/doc.pdf";
                 fv_name := lit "doc.pdf";
                 fv_suffix := lit ".PDF";
                 fv_exists := true;
                 fv_bytes := inr [37; 80; 68; 70]%N;
                 fv_pdf := inr [Some (lit "apple banana"); None;
                                Some (lit "car  truck")] |}
              [Some (lit "apple banana"); None; Some (lit "car  truck")]
              (lit "apple banana car truck")
              eq_refl eq_refl eq_refl H1)) H2).
Defined.

(** X9.  [ingest_text] on a text without a character other than white
    space (the empty text included) raises the [ValueError] "Input text is
    empty." and leaves the engine as it was. *)
Theorem ingest_text_blank :
  forall (V : TfidfVectorizer) (self : Engine V) (text source : str),
  ink text = false ->
  ingest_text text source self
  = (self, inl (ValueError (lit "Input text is empty."))).
Proof.
  intros V self text source H. rewrite ingest_text_rebuilt.
  rewrite blank_wordless. rewrite ink_wordless in H.
  destruct (wordless text); [reflexivity|discriminate].
Qed.

Lemma ingest_text_blank_witness :
  ink [32; 9; 10; 160; 8195]%N = false
  /\ ingest_text [32; 9; 10; 160; 8195]%N (lit "pasted")
       (Stub.engine Stub.count_vectorizer 3 1)
     = (Stub.engine Stub.count_vectorizer 3 1,
        inl (ValueError (lit "Input text is empty."))).
Proof.
  assert (H : ink [32; 9; 10; 160; 8195]%N = false) by reflexivity.
  split; [exact H|].
  exact (@ingest_text_blank Stub.count_vectorizer
           (Stub.engine Stub.count_vectorizer 3 1)
           [32; 9; 10; 160; 8195]%N (lit "pasted") H).
Defined.

(** X10.  Ingestion reads a text through its words only: two texts with the
    same words (differing in the amount or kind of white space) give the
    same result and leave the same engine. *)
Theorem ingest_text_words_only :
  forall (V : TfidfVectorizer) (self : Engine V) (t1 t2 source : str),
  split t1 = split t2 ->
  ingest_text t1 source self = ingest_text t2 source self.
Proof. intros V self t1 t2 source. apply ingest_text_same_words. Qed.

Lemma ingest_text_words_only_witness :
  split (lit "apple  banana car") = split [97; 112; 112; 108; 101; 10; 98;
                                           97; 110; 97; 110; 97; 9; 99; 97;
                                           114; 10]%N
  /\ ingest_text (lit "apple  banana car") (lit "s")
       (Stub.engine Stub.count_vectorizer 2 0)
     = ingest_text [97; 112; 112; 108; 101; 10; 98; 97; 110; 97; 110; 97; 9;
                    99; 97; 114; 10]%N (lit "s")
         (Stub.engine Stub.count_vectorizer 2 0).
Proof.
  assert (H : split (lit "apple  banana car")
              = split [97; 112; 112; 108; 101; 10; 98; 97; 110; 97; 110; 97;
                       9; 99; 97; 114; 10]%N)
    by (vm_compute; reflexivity).
  split; [exact H|].
  exact (@ingest_text_words_only Stub.count_vectorizer
           (Stub.engine Stub.count_vectorizer 2 0) _ _ (lit "s") H).
Defined.

(** X11.  [ingest_file] passes on what stops it before any text is there,
    and leaves the engine as it was: a missing file is a
    [FileNotFoundError] naming the path, whatever the suffix; for a ".txt"
    file, the exception of opening it, or [UnicodeDecodeError] when its
    bytes are not UTF-8; for a ".pdf" file, the exception of the PDF
    reader. *)
Theorem ingest_file_unreadable :
  forall (V : TfidfVectorizer) (self : Engine V) (path : FileView),
  (fv_exists path = false ->
   ingest_file path self
   = (self, inl (FileNotFoundError (lit "File not found: " ++ fv_str path))))
  /\ (fv_exists path = true ->
      fv_suffix_lower path = lit ".txt" ->
      (forall e, fv_bytes path = inl e ->
                 ingest_file path self = (self, inl e))
      /\ (forall bs, fv_bytes path = inr bs -> utf8_decode bs = None ->
                     ingest_file path self = (self, inl UnicodeDecodeError)))
  /\ (fv_exists path = true ->
      fv_suffix_lower path = lit ".pdf" ->
      forall e, fv_pdf path = inl e ->
                ingest_file path self = (self, inl e)).
Proof.
  intros V self path. unfold ingest_file, read_text. split; [|split].
  - intros ->. reflexivity.
  - intros -> ->. split.
    + intros e ->. reflexivity.
    + intros bs -> Hdec. cbn. rewrite Hdec. reflexivity.
  - intros -> ->. intros e ->. reflexivity.
Qed.

Lemma ingest_file_unreadable_witness :
  let e0 := Stub.engine Stub.count_vectorizer 3 1 in
  let missing :=
    {| fv_str := lit "nowhere/notes.txt";
       fv_name := lit "notes.txt";
       fv_suffix := lit ".txt";
       fv_exists := false;
       fv_bytes := inl (CollaboratorError (lit "no such file"));
       fv_pdf := inl (CollaboratorError (lit "no such file")) |} in
  let latin1 := Stub.txt (lit "latin1.txt") [99; 97; 102; 233]%N in
  ingest_file missing e0
  = (e0, inl (FileNotFoundError (lit "File not found: nowhere/notes.txt")))
  /\ ingest_file latin1 e0 = (e0, inl UnicodeDecodeError).
Proof.
  cbv zeta. split.
  - exact (proj1 (@ingest_file_unreadable Stub.count_vectorizer
                    (Stub.engine Stub.count_vectorizer 3 1)
                    {| fv_str := lit "nowhere/notes.txt";
                       fv_name := lit "notes.txt";
                       fv_suffix := lit ".txt";
                       fv_exists := false;
                       fv_bytes :=
                         inl (CollaboratorError (lit "no such file"));
                       fv_pdf :=
                         inl (CollaboratorError (lit "no such file")) |})
             eq_refl).
  - exact (proj2 (proj1 (proj2 (@ingest_file_unreadable
                                  Stub.count_vectorizer
                                  (Stub.engine Stub.count_vectorizer 3 1)
                                  (Stub.txt (lit "latin1.txt")
                                     [99; 97; 102; 233]%N)))
                    eq_refl eq_refl)
             [99; 97; 102; 233]%N eq_refl eq_refl).
Defined.

(** X12.  [__init__] returns an engine exactly when the key it is given
    or, failing that, the key of the environment is a non-empty string, and
    raises the [ValueError] "Missing GROQ_API_KEY. ..." otherwise; a
    non-empty given key wins over the environment; the new engine has the
    given sizes, no index, no chunks, no embeddings and no source. *)
Theorem init_key :
  forall (V : TfidfVectorizer) (key env_key : option str) (model : str)
         (size overlap : Z),
  let chosen :=
    match key with
    | Some (c :: k) => Some (c :: k)
    | _ => match env_key with
           | Some (c :: k) => Some (c :: k)
           | _ => None
           end
    end in
  match chosen with
  | Some k =>
      exists self : Engine V,
        __init__ V key env_key model size overlap = inr self
        /\ groq_api_key self = k
        /\ model_name self = model
        /\ chunk_size_words self = size
        /\ chunk_overlap_words self = overlap
        /\ index self = None /\ chunks self = []
        /\ embeddings self = None /\ source_name self = None
  | None =>
      __init__ V key env_key model size overlap
      = inl (ValueError
               (lit "Missing GROQ_API_KEY. Set it in environment or pass explicitly."))
  end.
Proof.
  intros V key env_key model size overlap. unfold __init__, or_else.
  destruct key as [[|c k]|]; cbv zeta;
    try (eexists; repeat split; reflexivity);
    destruct env_key as [[|c' k']|];
    try reflexivity; eexists; repeat split; reflexivity.
Qed.

(* ===================================================================== *)
(** * More on the knowledge base an ingest leaves *)
(* ===================================================================== *)

Section KnowledgeBaseFacts.

Variable V : TfidfVectorizer.

Lemma rebuilt_stored : forall name text (self self' : Engine V) n,
  fits V ->
  rebuilt name text self = (self', inr n) ->
  source_name self' = Some name
  /\ chunks self' = _chunk_text self text
  /\ n = Z.of_nat (length (chunks self'))
  /\ 1 <= n
  /\ exists X,
       embeddings self' = Some X
       /\ index self' = Some {| Faiss.d := ncols X; Faiss.xb := rows X |}
       /\ nrows X = length (chunks self')
       /\ rectangular X.
Proof.
  intros name text self self' n HV. unfold rebuilt.
  destruct (fit_transform V (vectorizer self) _) as [v [e'|X]] eqn:Hfit;
    [discriminate|].
  destruct (Nat.eqb_spec (size X) 0) as [|Hsize]; [discriminate|].
  intros [= <- <-]. cbn.
  pose proof (fit_rows HV _ _ Hfit) as Hrows.
  split; [reflexivity|]. split; [reflexivity|]. split; [reflexivity|].
  split.
  - unfold size in Hsize. rewrite Hrows in Hsize.
    destruct (length (_chunk_text self text)); [simpl in Hsize|]; lia.
  - exists X. split; [reflexivity|]. split; [reflexivity|].
    split; [exact Hrows|exact (fit_rectangular HV _ _ Hfit)].
Qed.

(** Two engines with the same settings and the same vectorizer run the
    shared lines alike. *)
Lemma rebuilt_fresh : forall name text (self1 self2 : Engine V),
  model_name self1 = model_name self2 ->
  chunk_size_words self1 = chunk_size_words self2 ->
  chunk_overlap_words self1 = chunk_overlap_words self2 ->
  groq_api_key self1 = groq_api_key self2 ->
  vectorizer self1 = vectorizer self2 ->
  snd (rebuilt name text self1) = snd (rebuilt name text self2)
  /\ (returned (snd (rebuilt name text self1)) = true ->
      fst (rebuilt name text self1) = fst (rebuilt name text self2)).
Proof.
  intros name text [m1 s1 o1 k1 v1 i1 c1 e1 n1] [m2 s2 o2 k2 v2 i2 c2 e2 n2].
  cbn. intros -> -> -> -> ->. unfold rebuilt, _chunk_text. cbn.
  destruct (fit_transform V v2 _) as [v [e'|X]]; cbn;
    [split; [reflexivity|discriminate]|].
  destruct (Nat.eqb (size X) 0); cbn;
    [split; [reflexivity|discriminate]|].
  split; reflexivity.
Qed.

End KnowledgeBaseFacts.

(** X13.  With a vectorizer that returns one row per document, the number
    an ingest returns is the number of chunks it stored, at least 1; the
    chunks are those of the chunker on the ingested text; and the index
    holds exactly the rows of the stored embedding matrix, one per chunk,
    all of its width. *)
Theorem ingest_text_stores :
  forall (V : TfidfVectorizer) (self self' : Engine V) (text source : str)
         (n : Z),
  fits V ->
  ingest_text text source self = (self', inr n) ->
  source_name self' = Some source
  /\ chunks self' = _chunk_text self text
  /\ n = Z.of_nat (length (chunks self'))
  /\ 1 <= n
  /\ exists X,
       embeddings self' = Some X
       /\ index self' = Some {| Faiss.d := ncols X; Faiss.xb := rows X |}
       /\ nrows X = length (chunks self')
       /\ rectangular X.
Proof.
  intros V self self' text source n HV. rewrite ingest_text_rebuilt.
  destruct (blank text); [discriminate|]. apply rebuilt_stored, HV.
Qed.

Lemma ingest_text_stores_witness :
  let e0 := Stub.engine Stub.count_vectorizer 2 0 in
  let e1 := fst (ingest_text (lit "apple banana apple orange car truck")
                   (lit "fruit") e0) in
  fits Stub.count_vectorizer
  /\ ingest_text (lit "apple banana apple orange car truck") (lit "fruit") e0
     = (e1, inr 3)
  /\ length (chunks e1) = 3%nat
  /\ exists X,
       embeddings e1 = Some X
       /\ index e1 = Some {| Faiss.d := ncols X; Faiss.xb := rows X |}.
Proof.
  cbv zeta. split; [exact count_vectorizer_fits|].
  assert (Hin : ingest_text (lit "apple banana apple orange car truck")
                  (lit "fruit") (Stub.engine Stub.count_vectorizer 2 0)
                = (fst (ingest_text
                          (lit "apple banana apple orange car truck")
                          (lit "fruit")
                          (Stub.engine Stub.count_vectorizer 2 0)),
                   inr 3))
    by (vm_compute; reflexivity).
  split; [exact Hin|]. split; [vm_compute; reflexivity|].
  destruct (@ingest_text_stores Stub.count_vectorizer _ _ _ _ 3
              count_vectorizer_fits Hin)
    as (_ & _ & _ & _ & X & HX & Hix & _).
  exists X. split; assumption.
Defined.

(** X14.  The same for [ingest_file]: what it returns is the number of
    chunks stored, at least 1, with the file's name as source and the index
    holding the rows of the stored embeddings, one per chunk. *)
Theorem ingest_file_stores :
  forall (V : TfidfVectorizer) (self self' : Engine V) (path : FileView)
         (n : Z),
  fits V ->
  ingest_file path self = (self', inr n) ->
  source_name self' = Some (fv_name path)
  /\ n = Z.of_nat (length (chunks self'))
  /\ 1 <= n
  /\ exists X,
       embeddings self' = Some X
       /\ index self' = Some {| Faiss.d := ncols X; Faiss.xb := rows X |}
       /\ nrows X = length (chunks self')
       /\ rectangular X.
Proof.
  intros V self self' path n HV.
  destruct (ingest_file_rebuilt path self) as [[e' ->]|[text ->]];
    [discriminate|].
  intro H. destruct (rebuilt_stored _ _ _ HV H) as (Hs & _ & Hn & H1 & HX).
  split; [exact Hs|]. split; [exact Hn|]. split; [exact H1|exact HX].
Qed.

Lemma ingest_file_stores_witness :
  let e0 := Stub.engine Stub.count_vectorizer 2 0 in
  let file := Stub.txt (lit "fruit.txt") [97; 32; 98; 10; 99]%N in
  let e1 := fst (ingest_file file e0) in
  fits Stub.count_vectorizer
  /\ ingest_file file e0 = (e1, inr 2)
  /\ source_name e1 = Some (lit "fruit.txt")
  /\ length (chunks e1) = 2%nat.
Proof.
  cbv zeta. split; [exact count_vectorizer_fits|].
  assert (Hin : ingest_file (Stub.txt (lit "fruit.txt")
                               [97; 32; 98; 10; 99]%N)
                  (Stub.engine Stub.count_vectorizer 2 0)
                = (fst (ingest_file (Stub.txt (lit "fruit.txt")
                                       [97; 32; 98; 10; 99]%N)
                          (Stub.engine Stub.count_vectorizer 2 0)),
                   inr 2))
    by (vm_compute; reflexivity).
  split; [exact Hin|].
  destruct (@ingest_file_stores Stub.count_vectorizer _ _ _ 2
              count_vectorizer_fits Hin) as (Hs & _).
  split; [exact Hs|]. vm_compute. reflexivity.
Defined.

(** X15.  A successful ingest leaves nothing of an earlier knowledge base:
    on two engines with the same settings and the same vectorizer,
    whatever chunks, index, embeddings and source they held, [ingest_text]
    returns or raises the same, and where it returns it leaves the same
    engine. *)
Theorem ingest_replaces_wholesale :
  forall (V : TfidfVectorizer) (self1 self2 : Engine V) (text source : str),
  model_name self1 = model_name self2 ->
  chunk_size_words self1 = chunk_size_words self2 ->
  chunk_overlap_words self1 = chunk_overlap_words self2 ->
  groq_api_key self1 = groq_api_key self2 ->
  vectorizer self1 = vectorizer self2 ->
  snd (ingest_text text source self1) = snd (ingest_text text source self2)
  /\ (returned (snd (ingest_text text source self1)) = true ->
      fst (ingest_text text source self1)
      = fst (ingest_text text source self2)).
Proof.
  intros V self1 self2 text source Hm Hs Ho Hk Hv.
  rewrite !ingest_text_rebuilt.
  destruct (blank text); [split; [reflexivity|discriminate]|].
  apply rebuilt_fresh; assumption.
Qed.

Lemma ingest_replaces_wholesale_witness :
  let e0 := Stub.engine Stub.count_vectorizer 2 0 in
  let e1 := fst (ingest_text (lit "the of") (lit "stop words") e0) in
  chunks e0 <> chunks e1
  /\ source_name e0 <> source_name e1
  /\ vectorizer e0 = vectorizer e1
  /\ fst (ingest_text (lit "one two three") (lit "numbers") e0)
     = fst (ingest_text (lit "one two three") (lit "numbers") e1).
Proof.
  cbv zeta. split; [vm_compute; discriminate|].
  split; [vm_compute; discriminate|]. split; [reflexivity|].
  apply (@ingest_replaces_wholesale Stub.count_vectorizer
           (Stub.engine Stub.count_vectorizer 2 0)
           (fst (ingest_text (lit "the of") (lit "stop words")
                   (Stub.engine Stub.count_vectorizer 2 0)))
           (lit "one two three") (lit "numbers"));
    reflexivity.
Defined.

(* ===================================================================== *)
(** * More on retrieval and synthesis *)
(* ===================================================================== *)

Lemma lstrip_is_tight : forall s, tight (lstrip s).
Proof.
  induction s as [|c s IH]; [exact I|]. simpl.
  destruct (is_space c) eqn:Hc; [exact IH|exact Hc].
Qed.

Lemma lstrip_suffix : forall s, exists spaces, s = spaces ++ lstrip s.
Proof.
  induction s as [|c s [spaces IH]]; [exists []; reflexivity|]. simpl.
  destruct (is_space c).
  - exists (c :: spaces). simpl. rewrite <- IH. reflexivity.
  - exists []. reflexivity.
Qed.

(** [strip] leaves no white space at either end. *)
Lemma strip_tight : forall s, tight (strip s) /\ tight (rev (strip s)).
Proof.
  intro s. unfold strip, rstrip. split.
  - destruct (lstrip_suffix (rev (lstrip s))) as [spaces E].
    apply (f_equal (@rev _)) in E.
    rewrite rev_involutive, rev_app_distr in E.
    pose proof (lstrip_is_tight s) as Ht. rewrite E in Ht.
    destruct (rev (lstrip (rev (lstrip s)))); [exact I|exact Ht].
  - rewrite rev_involutive. apply lstrip_is_tight.
Qed.

Lemma filter_all : forall (A : Type) (f : A -> bool) l,
  Forall (fun x => f x = true) l -> filter f l = l.
Proof.
  intros A f l H. induction H as [|x l Hx _ IH]; [reflexivity|].
  simpl. rewrite Hx, IH. reflexivity.
Qed.

Section RetrievalFacts.

Variable V : TfidfVectorizer.

(** On a knowledge base every ranked row is a chunk: nothing is skipped. *)
Lemma retrieve_loaded : forall (self : Engine V) ix query top_k,
  knowledge_base self ix -> 0 < top_k ->
  exists rs,
    retrieve self query top_k = inr rs
    /\ length rs = Nat.min (Z.to_nat top_k) (length (chunks self))
    /\ rs <> [].
Proof.
  intros self ix query top_k Hkb Hk.
  destruct (@knowledge_base_retrieves V self ix query top_k Hkb Hk)
    as [rs Hrs].
  exists rs. split; [exact Hrs|].
  destruct (retrieve_returned _ _ _ Hrs) as (ix' & q_vec & Hix & _ & _ & ->).
  rewrite (kb_index Hkb) in Hix. injection Hix as <-.
  destruct (ranked_rows q_vec (Faiss.xb ix)) as (_ & Hlen & Hrows).
  cbv zeta in Hlen, Hrows. fold (Faiss.ntotal ix) in Hlen, Hrows.
  rewrite (kb_rows Hkb) in Hlen, Hrows.
  set (ranked := Faiss.sort_hits _) in *.
  rewrite filter_all.
  - assert (Hn : length (List.map (to_result (chunks self))
                           (firstn (Z.to_nat top_k) ranked))
                 = Nat.min (Z.to_nat top_k) (length (chunks self)))
      by (rewrite length_map, length_firstn, Hlen; reflexivity).
    split; [exact Hn|].
    intro E. rewrite E in Hn. simpl in Hn.
    pose proof (kb_chunks Hkb) as Hne.
    destruct (chunks self); [contradiction|simpl in Hn; lia].
  - apply Forall_firstn. eapply Forall_impl; [|exact Hrows].
    intros [dist i] [Hi _]. unfold valid. cbn [snd] in *.
    apply negb_true_iff, orb_false_iff. split.
    + apply Z.ltb_ge. lia.
    + rewrite Z.geb_leb. apply Z.leb_gt. lia.
Qed.

Variable generate : GenRequest -> result str.

Lemma answer_one_request : forall (self : Engine V) query top_k t d ds,
  retrieve self query top_k = inr (d :: ds) ->
  length (snd (answer generate self query top_k t)) = 1%nat.
Proof.
  intros self query top_k t d ds H. unfold answer. rewrite H.
  destruct (generate _); reflexivity.
Qed.

Lemma answer_loaded : forall (self : Engine V) ix query top_k t,
  knowledge_base self ix -> 0 < top_k ->
  length (snd (answer generate self query top_k t)) = 1%nat.
Proof.
  intros self ix query top_k t Hkb Hk.
  destruct (retrieve_loaded query Hkb Hk) as (rs & Hrs & _ & Hne).
  destruct rs as [|d ds]; [contradiction|].
  eapply answer_one_request. exact Hrs.
Qed.

Lemma answer_at_most_one : forall (self : Engine V) query top_k t,
  (length (snd (answer generate self query top_k t)) <= 1)%nat.
Proof.
  intros self query top_k t. unfold answer.
  destruct (retrieve self query top_k) as [e|[|d ds]]; cbn; try lia.
  destruct (generate _); cbn; lia.
Qed.

End RetrievalFacts.

(** X16.  Whatever [retrieve] returns, it returns at most [top_k] results,
    and the chunk of every result is one of the stored chunks. *)
Theorem retrieve_results_are_chunks :
  forall (V : TfidfVectorizer) (self : Engine V) (query : str) (top_k : Z)
         (rs : list RetrievalResult),
  retrieve self query top_k = inr rs ->
  (length rs <= Z.to_nat top_k)%nat
  /\ Forall (fun r => In (chunk r) (chunks self)) rs.
Proof.
  intros V self query top_k rs Hrs.
  destruct (retrieve_returned _ _ _ Hrs) as (ix & q_vec & _ & _ & _ & ->).
  split.
  - rewrite length_map.
    eapply Nat.le_trans; [apply filter_length_le|apply firstn_le_length].
  - apply Forall_forall. intros r Hr. apply in_map_iff in Hr.
    destruct Hr as ([dist i] & <- & Hin). apply filter_In in Hin.
    destruct Hin as [_ Hvalid]. unfold valid in Hvalid. cbn [snd] in *.
    apply negb_true_iff, orb_false_iff in Hvalid.
    destruct Hvalid as [H0 Hn].
    apply Z.ltb_ge in H0. rewrite Z.geb_leb in Hn. apply Z.leb_gt in Hn.
    unfold to_result. cbn [chunk snd]. apply nth_In. lia.
Qed.

Lemma retrieve_results_are_chunks_witness :
  let e0 := Stub.engine Stub.count_vectorizer 2 0 in
  let e1 := fst (ingest_text (lit "apple banana apple orange car truck")
                   (lit "fruit") e0) in
  let e2 := fst (ingest_text (lit "the of and the") (lit "stop words") e1) in
  retrieve e2 (lit "apple") 2
  = inr [ {| chunk := lit "the of"; score := 1%Q |};
          {| chunk := lit "and the"; score := 1%Q |} ]
  /\ Forall (fun r => In (chunk r) (chunks e2))
       [ {| chunk := lit "the of"; score := 1%Q |};
         {| chunk := lit "and the"; score := 1%Q |} ].
Proof.
  cbv zeta.
  assert (H : retrieve
                (fst (ingest_text (lit "the of and the") (lit "stop words")
                   (fst (ingest_text
                           (lit "apple banana apple orange car truck")
                           (lit "fruit")
                           (Stub.engine Stub.count_vectorizer 2 0)))))
                (lit "apple") 2
              = inr [ {| chunk := lit "the of"; score := 1%Q |};
                      {| chunk := lit "and the"; score := 1%Q |} ])
    by (vm_compute; reflexivity).
  split; [exact H|].
  exact (proj2 (@retrieve_results_are_chunks _ _ _ _ _ H)).
Defined.

(** X17.  On a loaded knowledge base with [C] chunks, [retrieve] with a
    positive [top_k] returns exactly min([top_k], [C]) results, so at least
    one. *)
Theorem retrieve_count :
  forall (V : TfidfVectorizer) (self : Engine V) (ix : Faiss.IndexFlatL2)
         (query : str) (top_k : Z),
  knowledge_base self ix -> 0 < top_k ->
  exists rs,
    retrieve self query top_k = inr rs
    /\ length rs = Nat.min (Z.to_nat top_k) (length (chunks self))
    /\ rs <> [].
Proof. intros V self ix query top_k. apply retrieve_loaded. Qed.

Lemma retrieve_count_witness :
  let e0 := Stub.engine Stub.count_vectorizer 2 0 in
  let e1 := fst (ingest_text (lit "apple banana apple orange car truck")
                   (lit "fruit") e0) in
  (exists ix, knowledge_base e1 ix)
  /\ 0 < 2
  /\ exists rs, retrieve e1 (lit "truck") 2 = inr rs /\ length rs = 2%nat.
Proof.
  cbv zeta.
  assert (Hin : ingest_text (lit "apple banana apple orange car truck")
                  (lit "fruit") (Stub.engine Stub.count_vectorizer 2 0)
                = (fst (ingest_text
                          (lit "apple banana apple orange car truck")
                          (lit "fruit")
                          (Stub.engine Stub.count_vectorizer 2 0)),
                   inr 3))
    by (vm_compute; reflexivity).
  destruct (ingest_text_returned _ _ _ count_vectorizer_fits Hin)
    as (_ & ix & Hkb).
  assert (Hk : 0 < 2) by lia.
  split; [exists ix; exact Hkb|]. split; [exact Hk|].
  destruct (@retrieve_count _ _ ix (lit "truck") 2 Hkb Hk)
    as (rs & Hrs & Hlen & _).
  exists rs. split; [exact Hrs|]. rewrite Hlen. vm_compute. reflexivity.
Defined.

(** X18.  [answer] sends at most one request to the generation
    collaborator, and one exactly when [retrieve] returned a non-empty
    list; a request carries the model of the engine, the given temperature
    and a single message of role "user".  When [retrieve] raises, [answer]
    raises the same without any request; when the collaborator raises,
    [answer] raises the same after that one request. *)
Theorem answer_requests :
  forall (V : TfidfVectorizer) (generate : GenRequest -> result str)
         (self : Engine V) (query : str) (top_k : Z) (temperature : num),
  let out := answer generate self query top_k temperature in
  (length (snd out) <= 1)%nat
  /\ (snd out <> [] <-> exists d ds, retrieve self query top_k = inr (d :: ds))
  /\ Forall (fun req =>
               req_model req = model_name self
               /\ req_temperature req = temperature
               /\ exists p, req_messages req = [(lit "user", p)])
            (snd out)
  /\ (forall e, retrieve self query top_k = inl e -> out = (inl e, []))
  /\ (forall req e, snd out = [req] -> generate req = inl e ->
                    fst out = inl e).
Proof.
  intros V generate self query top_k temperature out. subst out.
  split; [apply answer_at_most_one|].
  unfold answer.
  destruct (retrieve self query top_k) as [e|[|d ds]] eqn:Hr.
  - cbn. split; [split; [contradiction|intros (d & ds & H); discriminate]|].
    split; [constructor|]. split; [intros e' [= ->]; reflexivity|].
    intros req e' H. discriminate.
  - cbn. split; [split; [contradiction|intros (d & ds & H); discriminate]|].
    split; [constructor|]. split; [discriminate|].
    intros req e' H. discriminate.
  - set (request := {| req_model := model_name self;
                       req_messages := _;
                       req_temperature := temperature |}).
    assert (Hsent : snd (match generate request with
                         | inl e => (raise e, [request])
                         | inr content =>
                             (ok (strip content, d :: ds), [request])
                         end : result (str * list RetrievalResult)
                               * list GenRequest) = [request])
      by (destruct (generate request); reflexivity).
    rewrite Hsent.
    split; [split; [intros _; exists d, ds; reflexivity|discriminate]|].
    split.
    + constructor; [|constructor]. cbn.
      split; [reflexivity|]. split; [reflexivity|]. eexists. reflexivity.
    + split; [discriminate|].
      intros req e' [= <-] Hg. rewrite Hg. reflexivity.
Qed.

(** X19.  Whatever [answer] returns, its evidence list is the list
    [retrieve] returned, and its text has no white space at either end. *)
Theorem answer_trimmed :
  forall (V : TfidfVectorizer) (generate : GenRequest -> result str)
         (self : Engine V) (query : str) (top_k : Z) (temperature : num)
         (text : str) (docs : list RetrievalResult),
  fst (answer generate self query top_k temperature) = inr (text, docs) ->
  retrieve self query top_k = inr docs
  /\ tight text /\ tight (rev text).
Proof.
  intros V generate self query top_k temperature text docs.
  unfold answer.
  destruct (retrieve self query top_k) as [e|[|d ds]]; [discriminate| |].
  - cbn. intros [= <- <-]. split; [reflexivity|]. split; reflexivity.
  - destruct (generate _) as [e|content]; [discriminate|].
    cbn. intros [= <- <-]. split; [reflexivity|]. apply strip_tight.
Qed.

Lemma answer_trimmed_witness :
  let e0 := Stub.engine Stub.count_vectorizer 2 0 in
  let e1 := fst (ingest_text (lit "apple banana apple orange car truck")
                   (lit "fruit") e0) in
  Stub.generate
    {| req_model := lit "m"; req_messages := []; req_temperature := 0%Q |}
  = inr (lit " done ")
  /\ exists docs,
       fst (answer Stub.generate e1 (lit "truck") 1 0%Q)
       = inr (lit "done", docs)
       /\ retrieve e1 (lit "truck") 1 = inr docs.
Proof.
  cbv zeta. split; [reflexivity|].
  eexists. 
  assert (H : fst (answer Stub.generate
                     (fst (ingest_text
                             (lit "apple banana apple orange car truck")
                             (lit "fruit")
                             (Stub.engine Stub.count_vectorizer 2 0)))
                     (lit "truck") 1 0%Q)
              = inr (lit "done",
                     [ {| chunk := lit "car truck"; score := 1%Q |} ]))
    by (vm_compute; reflexivity).
  split; [exact H|].
  exact (proj1 (@answer_trimmed _ _ _ _ _ _ _ _ H)).
Defined.

(** X20.  After an ingest that returned, with a vectorizer that returns one
    row per document, every [answer] with a positive [top_k] sends exactly
    one request to the generation collaborator: the sentence for missing
    context is never the answer. *)
Theorem answer_after_ingest :
  forall (V : TfidfVectorizer) (generate : GenRequest -> result str)
         (self self' : Engine V) (text source query : str)
         (n top_k : Z) (temperature : num),
  fits V ->
  ingest_text text source self = (self', inr n) ->
  0 < top_k ->
  length (snd (answer generate self' query top_k temperature)) = 1%nat.
Proof.
  intros V generate self self' text source query n top_k temperature
    HV Hin Hk.
  destruct (ingest_text_returned _ _ _ HV Hin) as (_ & ix & Hkb).
  exact (answer_loaded generate query temperature Hkb Hk).
Qed.

Lemma answer_after_ingest_witness :
  let e0 := Stub.engine Stub.count_vectorizer 2 0 in
  let e1 := fst (ingest_text (lit "apple banana apple orange car truck")
                   (lit "fruit") e0) in
  fits Stub.count_vectorizer
  /\ ingest_text (lit "apple banana apple orange car truck") (lit "fruit") e0
     = (e1, inr 3)
  /\ 0 < 3
  /\ length (snd (answer Stub.generate e1 (lit "pear") 3 0%Q)) = 1%nat.
Proof.
  cbv zeta.
  assert (Hin : ingest_text (lit "apple banana apple orange car truck")
                  (lit "fruit") (Stub.engine Stub.count_vectorizer 2 0)
                = (fst (ingest_text
                          (lit "apple banana apple orange car truck")
                          (lit "fruit")
                          (Stub.engine Stub.count_vectorizer 2 0)),
                   inr 3))
    by (vm_compute; reflexivity).
  assert (Hk : 0 < 3) by lia.
  split; [exact count_vectorizer_fits|]. split; [exact Hin|].
  split; [exact Hk|].
  exact (@answer_after_ingest _ Stub.generate _ _ _ _ (lit "pear") 3 3 0%Q
           count_vectorizer_fits Hin Hk).
Defined.

(* ===================================================================== *)
(** * The application *)
(* ===================================================================== *)

Section AppFacts.

Variable V : TfidfVectorizer.
Variable generate : GenRequest -> result str.
Variable env_key : option str.
Variable exn_text : exn -> str.

Local Abbreviation Session := (App.Session V).
Local Abbreviation build := (App.build env_key).
Local Abbreviation chat := (App.chat generate exn_text).
Local Abbreviation run := (App.run generate env_key exn_text).
Local Abbreviation runs := (App.runs generate env_key exn_text).

Lemma rebuilt_settings : forall name text (self : Engine V),
  let self' := fst (rebuilt name text self) in
  model_name self' = model_name self
  /\ chunk_size_words self' = chunk_size_words self
  /\ chunk_overlap_words self' = chunk_overlap_words self
  /\ groq_api_key self' = groq_api_key self.
Proof.
  intros name text self. unfold rebuilt.
  destruct (fit_transform V (vectorizer self) _) as [v [e|X]];
    [cbn; repeat split|].
  destruct (Nat.eqb (size X) 0); cbn; repeat split.
Qed.

Lemma ingest_file_settings : forall path (self : Engine V),
  let self' := fst (ingest_file path self) in
  model_name self' = model_name self
  /\ chunk_size_words self' = chunk_size_words self
  /\ chunk_overlap_words self' = chunk_overlap_words self
  /\ groq_api_key self' = groq_api_key self.
Proof.
  intros path self.
  destruct (ingest_file_rebuilt path self) as [[e ->]|[text ->]].
  - cbn. repeat split.
  - apply rebuilt_settings.
Qed.

Lemma ingest_file_source : forall path (self self' : Engine V) n,
  fits V ->
  ingest_file path self = (self', inr n) ->
  source_name self' = Some (fv_name path).
Proof.
  intros path self self' n HV.
  destruct (ingest_file_rebuilt path self) as [[e' ->]|[text ->]];
    [discriminate|].
  intro H. exact (proj1 (rebuilt_stored _ _ _ HV H)).
Qed.

(** The build handler either leaves the session as it is, or installs a
    new engine that holds a knowledge base. *)
Lemma build_cases : forall (w : App.Widgets) (ss : Session),
  fits V ->
  build w ss = ss
  \/ exists up e ix,
       App.uploaded_file w = Some up
       /\ build w ss
          = {| App.engine := Some e; App.messages := [];
               App.kb_loaded := true |}
       /\ knowledge_base e ix
       /\ source_name e = Some (App.tmp_name up)
       /\ chunk_size_words e = App.chunk_size w
       /\ chunk_overlap_words e = App.chunk_overlap w
       /\ groq_api_key e = App.api_key w.
Proof.
  intros w ss HV. unfold App.build.
  destruct (App.api_key w) as [|c key] eqn:Hkey; [left; reflexivity|].
  cbn [truthy negb].
  destruct (App.uploaded_file w) as [up|]; [|left; reflexivity].
  unfold __init__, or_else, ok. cbv beta iota.
  set (new := {| model_name := _ |}).
  destruct (ingest_file (App.tmp_file up) new) as [loaded [e|n]] eqn:Hin;
    [left; reflexivity|].
  right.
  destruct (ingest_file_returned _ _ HV Hin) as (_ & ix & Hkb).
  pose proof (ingest_file_source _ _ HV Hin) as Hsrc.
  pose proof (ingest_file_settings (App.tmp_file up) new) as Hset.
  rewrite Hin in Hset. subst new. cbn in Hset.
  destruct Hset as (_ & Hs & Ho & Hk).
  exists up, loaded, ix.
  split; [reflexivity|]. split; [reflexivity|]. split; [exact Hkb|].
  split; [exact Hsrc|]. split; [exact Hs|]. split; [exact Ho|exact Hk].
Qed.

Lemma build_sound : forall (w : App.Widgets) (ss : Session),
  fits V -> App.sound ss -> App.sound (build w ss).
Proof.
  intros w ss HV Hss.
  destruct (build_cases w ss HV)
    as [->|(up & e & ix & _ & -> & Hkb & _)]; [exact Hss|].
  unfold App.sound. cbn. split; [reflexivity|exists ix; exact Hkb].
Qed.

Lemma chat_session : forall q k (ss : Session),
  App.engine (fst (chat q k ss)) = App.engine ss
  /\ App.kb_loaded (fst (chat q k ss)) = App.kb_loaded ss
  /\ exists m,
       App.messages (fst (chat q k ss))
       = App.messages ss
         ++ [{| App.role := lit "user"; App.content := q;
                App.context := None |}; m]
       /\ App.role m = lit "assistant".
Proof.
  intros q k [eng msgs loaded]. unfold App.chat.
  cbn [App.append App.kb_loaded App.engine App.messages].
  destruct loaded; destruct eng as [e|];
    try (cbn; split; [reflexivity|]; split; [reflexivity|];
         eexists; rewrite <- app_assoc; split; reflexivity).
  destruct (answer generate e q k 0%Q) as [[exc|[answer docs]] sent];
    cbn; split; try reflexivity; split; try reflexivity;
    eexists; rewrite <- app_assoc; split; reflexivity.
Qed.

Lemma chat_sound : forall q k (ss : Session),
  App.sound ss -> App.sound (fst (chat q k ss)).
Proof.
  intros q k ss. unfold App.sound.
  destruct (chat_session q k ss) as (-> & -> & _). exact (fun H => H).
Qed.

Lemma run_sound : forall (w : App.Widgets) (ss : Session),
  fits V -> App.sound ss -> App.sound (fst (run w ss)).
Proof.
  intros w ss HV Hss. unfold App.run.
  assert (Hb : App.sound (if App.build_index w then build w ss else ss))
    by (destruct (App.build_index w); [apply build_sound|]; assumption).
  destruct (App.question w) as [[|c q]|]; try exact Hb.
  apply chat_sound. exact Hb.
Qed.

Lemma runs_sound : forall (ws : list App.Widgets) (ss : Session),
  fits V -> App.sound ss -> App.sound (runs ws ss).
Proof.
  induction ws as [|w ws IH]; intros ss HV Hss; [exact Hss|].
  cbn [App.runs]. apply IH; [exact HV|]. apply run_sound; assumption.
Qed.

Lemma chat_sent : forall q k (ss : Session),
  (length (snd (chat q k ss)) <= 1)%nat.
Proof.
  intros q k [eng msgs loaded]. unfold App.chat.
  cbn [App.append App.kb_loaded App.engine App.messages].
  destruct loaded; destruct eng as [e|]; try (cbn; lia).
  pose proof (answer_at_most_one generate e q k 0%Q) as H.
  destruct (answer generate e q k 0%Q) as [[exc|[answer docs]] sent];
    exact H.
Qed.

End AppFacts.

(** X21.  Pressing "Build Index" changes the session all or nothing.  With
    an empty key or without an uploaded file the session (engine, flag and
    messages) stays as it was.  With a key and an uploaded file, a new
    engine is constructed with the key and the sizes of the widgets and
    ingests the uploaded file: when that ingest raises, the session stays
    as it was; when it returns, the session holds that engine, now with a
    loaded knowledge base, the flag is set and the messages are cleared. *)
Theorem build_all_or_nothing :
  forall (V : TfidfVectorizer) (env_key : option str)
         (w : App.Widgets) (ss : App.Session V),
  fits V ->
  (App.api_key w = [] -> App.build env_key w ss = ss)
  /\ (App.uploaded_file w = None -> App.build env_key w ss = ss)
  /\ (forall up,
        App.api_key w <> [] ->
        App.uploaded_file w = Some up ->
        exists new : Engine V,
          __init__ V (Some (App.api_key w)) env_key
            (lit "llama-3.1-8b-instant")
            (App.chunk_size w) (App.chunk_overlap w) = inr new
          /\ (forall left e,
                ingest_file (App.tmp_file up) new = (left, inl e) ->
                App.build env_key w ss = ss)
          /\ (forall loaded n,
                ingest_file (App.tmp_file up) new = (loaded, inr n) ->
                App.build env_key w ss
                = {| App.engine := Some loaded; App.messages := [];
                     App.kb_loaded := true |}
                /\ (exists ix, knowledge_base loaded ix)
                /\ source_name loaded = Some (App.tmp_name up)
                /\ chunk_size_words loaded = App.chunk_size w
                /\ chunk_overlap_words loaded = App.chunk_overlap w
                /\ groq_api_key loaded = App.api_key w)).
Proof.
  intros V env_key w ss HV. split; [|split].
  - intros Hkey. unfold App.build. rewrite Hkey. reflexivity.
  - intros Hup. unfold App.build. rewrite Hup.
    destruct (negb (truthy (App.api_key w))); reflexivity.
  - intros up Hkey Hup. unfold App.build. rewrite Hup.
    destruct (App.api_key w) as [|c key]; [contradiction|].
    cbn [truthy negb]. unfold __init__, or_else, ok. cbv beta iota.
    set (new := {| model_name := _ |}).
    exists new. split; [reflexivity|]. split.
    + intros left e Hin. rewrite Hin. reflexivity.
    + intros loaded n Hin. rewrite Hin.
      split; [reflexivity|].
      destruct (ingest_file_returned _ _ HV Hin) as (_ & ix & Hkb).
      pose proof (ingest_file_source _ _ HV Hin) as Hsrc.
      pose proof (ingest_file_settings (App.tmp_file up) new) as Hset.
      rewrite Hin in Hset. subst new. cbn in Hset.
      destruct Hset as (_ & Hs & Ho & Hk).
      split; [exists ix; exact Hkb|]. split; [exact Hsrc|].
      split; [exact Hs|]. split; [exact Ho|exact Hk].
Qed.

Lemma build_all_or_nothing_witness :
  let up :=
    {| App.tmp_path := lit "/tmp/tmpab12.TXT";
       App.tmp_name := lit "tmpab12.TXT";
       App.suffix := lit ".TXT";
       App.buffer := [97; 32; 98; 10; 99]%N;
       App.pdf_pages := inl (CollaboratorError (lit "not a PDF")) |} in
  let w :=
    {| App.api_key := lit "gsk_key";
       App.uploaded_file := Some up;
       App.chunk_size := 80;
       App.chunk_overlap := 100;
       App.build_index := true;
       App.top_k := 3;
       App.question := None |} in
  let ss := App.new_session Stub.count_vectorizer in
  fits Stub.count_vectorizer
  /\ App.api_key w <> []
  /\ App.kb_loaded (App.build None w ss) = true
  /\ App.messages (App.build None w ss) = []
  /\ exists loaded,
       App.engine (App.build None w ss) = Some loaded
       /\ chunk_size_words loaded = 80
       /\ source_name loaded = Some (lit "tmpab12.TXT").
Proof.
  cbv zeta.
  set (up := {| App.tmp_path := lit "/tmp/tmpab12.TXT";
                App.tmp_name := lit "tmpab12.TXT";
                App.suffix := lit ".TXT";
                App.buffer := [97; 32; 98; 10; 99]%N;
                App.pdf_pages :=
                  inl (CollaboratorError (lit "not a PDF")) |}).
  set (w := {| App.api_key := lit "gsk_key";
               App.uploaded_file := Some up;
               App.chunk_size := 80;
               App.chunk_overlap := 100;
               App.build_index := true;
               App.top_k := 3;
               App.question := None |}).
  assert (Hkey : App.api_key w <> []) by (vm_compute; discriminate).
  split; [exact count_vectorizer_fits|]. split; [exact Hkey|].
  destruct (proj2 (proj2
              (@build_all_or_nothing Stub.count_vectorizer None w
                 (App.new_session Stub.count_vectorizer)
                 count_vectorizer_fits)) up Hkey eq_refl)
    as (new & Hinit & _ & Hok).
  injection Hinit as Hnew.
  destruct (Hok (fst (ingest_file (App.tmp_file up) new)) 1)
    as (Hbuild & _ & Hsrc & Hsize & _).
  { rewrite <- Hnew. vm_compute. reflexivity. }
  rewrite Hbuild. split; [reflexivity|]. split; [reflexivity|].
  eexists. split; [reflexivity|]. split; [exact Hsize|exact Hsrc].
Defined.

(** X22.  In every session reached from a first run by any sequence of
    runs of the script, the flag [kb_loaded] is set exactly when there is an
    engine, and that engine holds a loaded knowledge base (chunks, one
    index row per chunk): the chat never queries an engine without one. *)
Theorem session_sound :
  forall (V : TfidfVectorizer) (generate : GenRequest -> result str)
         (env_key : option str) (exn_text : exn -> str)
         (ws : list App.Widgets),
  fits V ->
  App.sound (App.runs generate env_key exn_text ws (App.new_session V)).
Proof.
  intros V generate env_key exn_text ws HV.
  apply runs_sound; [exact HV|reflexivity].
Qed.

Lemma session_sound_witness :
  fits Stub.count_vectorizer
  /\ App.sound
       (App.runs Stub.generate None (fun _ => lit "error")
          [ {| App.api_key := [];
               App.uploaded_file := None;
               App.chunk_size := 180;
               App.chunk_overlap := 40;
               App.build_index := true;
               App.top_k := 3;
               App.question := Some (lit "What is it about?") |} ]
          (App.new_session Stub.count_vectorizer)).
Proof.
  split; [exact count_vectorizer_fits|].
  exact (@session_sound Stub.count_vectorizer Stub.generate None
           (fun _ => lit "error") _ count_vectorizer_fits).
Defined.

(** X23.  A question adds exactly two messages to the session, after the
    ones it had: the question, of role "user", then one message of role
    "assistant"; engine and flag stay; at most one request goes to the
    generation collaborator, and none while no knowledge base is loaded,
    when the assistant says "Please build the index first from the setup
    panel.". *)
Theorem chat_appends :
  forall (V : TfidfVectorizer) (generate : GenRequest -> result str)
         (exn_text : exn -> str) (q : str) (k : Z) (ss : App.Session V),
  let out := App.chat generate exn_text q k ss in
  App.engine (fst out) = App.engine ss
  /\ App.kb_loaded (fst out) = App.kb_loaded ss
  /\ (exists m,
        App.messages (fst out)
        = App.messages ss
          ++ [{| App.role := lit "user"; App.content := q;
                 App.context := None |}; m]
        /\ App.role m = lit "assistant")
  /\ (length (snd out) <= 1)%nat
  /\ (App.kb_loaded ss = false \/ App.engine ss = None ->
      out = (App.append
               {| App.role := lit "assistant";
                  App.content :=
                    lit "Please build the index first from the setup panel.";
                  App.context := None |}
               (App.append
                  {| App.role := lit "user"; App.content := q;
                     App.context := None |} ss),
             [])).
Proof.
  intros V generate exn_text q k ss out. subst out.
  destruct (chat_session generate exn_text q k ss) as (He & Hk & Hm).
  split; [exact He|]. split; [exact Hk|]. split; [exact Hm|].
  split; [apply chat_sent|].
  intros H. destruct ss as [eng msgs loaded]. unfold App.chat.
  cbn [App.append App.kb_loaded App.engine App.messages] in *.
  destruct H as [-> | ->]; [reflexivity|].
  destruct loaded; reflexivity.
Qed.

(** X24.  In a session reached from a first run in which a knowledge base
    is loaded, a question with a positive [top_k] (the slider gives 1 to 8)
    sends exactly one request to the generation collaborator. *)
Theorem chat_loaded_generates :
  forall (V : TfidfVectorizer) (generate : GenRequest -> result str)
         (env_key : option str) (exn_text : exn -> str)
         (ws : list App.Widgets) (q : str) (k : Z),
  fits V ->
  let ss := App.runs generate env_key exn_text ws (App.new_session V) in
  App.kb_loaded ss = true ->
  0 < k ->
  length (snd (App.chat generate exn_text q k ss)) = 1%nat.
Proof.
  intros V generate env_key exn_text ws q k HV ss Hloaded Hk.
  pose proof (@runs_sound V generate env_key exn_text ws
                (App.new_session V) HV eq_refl) as Hsound.
  fold ss in Hsound. unfold App.sound in Hsound.
  destruct ss as [eng msgs loaded]. unfold App.chat.
  cbn [App.append App.kb_loaded App.engine App.messages] in *.
  subst loaded. destruct eng as [e|]; [|discriminate].
  destruct Hsound as (_ & ix & Hkb).
  pose proof (answer_loaded generate q 0%Q Hkb Hk) as H.
  destruct (answer generate e q k 0%Q) as [[exc|[answer docs]] sent];
    exact H.
Qed.

Lemma chat_loaded_generates_witness :
  let w :=
    {| App.api_key := lit "gsk_key";
       App.uploaded_file :=
         Some {| App.tmp_path := lit "/tmp/tmpab12.txt";
                 App.tmp_name := lit "tmpab12.txt";
                 App.suffix := lit ".txt";
                 App.buffer := [97; 32; 98; 10; 99]%N;
                 App.pdf_pages := inl (CollaboratorError (lit "not a PDF")) |};
       App.chunk_size := 80;
       App.chunk_overlap := 0;
       App.build_index := true;
       App.top_k := 3;
       App.question := None |} in
  let ss := App.runs Stub.generate None (fun _ => lit "error") [w]
              (App.new_session Stub.count_vectorizer) in
  fits Stub.count_vectorizer
  /\ App.kb_loaded ss = true
  /\ 0 < 3
  /\ length (snd (App.chat Stub.generate (fun _ => lit "error")
                    (lit "b?") 3 ss)) = 1%nat.
Proof.
  cbv zeta.
  assert (Hk : 0 < 3) by lia.
  split; [exact count_vectorizer_fits|].
  split; [vm_compute; reflexivity|]. split; [exact Hk|].
  apply (@chat_loaded_generates Stub.count_vectorizer Stub.generate None
           (fun _ => lit "error") _ (lit "b?") 3 count_vectorizer_fits);
    [vm_compute; reflexivity|exact Hk].
Defined.

Lemma chat_appends_witness :
  let ss := App.new_session Stub.count_vectorizer in
  App.kb_loaded ss = false
  /\ snd (App.chat Stub.generate (fun _ => lit "error") (lit "Why?") 3 ss)
     = []
  /\ List.map (@App.content)
       (App.messages
          (fst (App.chat Stub.generate (fun _ => lit "error")
                  (lit "Why?") 3 ss)))
     = [lit "Why?";
        lit "Please build the index first from the setup panel."].
Proof.
  cbv zeta.
  pose proof (proj2 (proj2 (proj2 (proj2
                (@chat_appends Stub.count_vectorizer Stub.generate
                   (fun _ => lit "error") (lit "Why?") 3
                   (App.new_session Stub.count_vectorizer)))))
                (or_introl eq_refl)) as H.
  split; [reflexivity|]. rewrite H. split; reflexivity.
Defined.

Lemma answer_requests_witness :
  let e0 := Stub.engine Stub.count_vectorizer 2 0 in
  let e1 := fst (ingest_text (lit "apple banana apple orange car truck")
                   (lit "fruit") e0) in
  (exists d ds, retrieve e1 (lit "truck") 1 = inr (d :: ds))
  /\ snd (answer Stub.generate e1 (lit "truck") 1 0%Q) <> []
  /\ retrieve e0 (lit "truck") 1
     = inl (RuntimeError
              (lit "No knowledge base loaded. Ingest a file first."))
  /\ answer Stub.generate e0 (lit "truck") 1 0%Q
     = (inl (RuntimeError
               (lit "No knowledge base loaded. Ingest a file first.")), []).
Proof.
  cbv zeta.
  assert (H1 : exists d ds,
             retrieve
               (fst (ingest_text
                       (lit "apple banana apple orange car truck")
                       (lit "fruit")
                       (Stub.engine Stub.count_vectorizer 2 0)))
               (lit "truck") 1 = inr (d :: ds))
    by (eexists; eexists; vm_compute; reflexivity).
  assert (H2 : retrieve (Stub.engine Stub.count_vectorizer 2 0)
                 (lit "truck") 1
               = inl (RuntimeError
                        (lit "No knowledge base loaded. Ingest a file first.")))
    by reflexivity.
  split; [exact H1|].
  split; [exact (proj2 (proj1 (proj2
                   (@answer_requests Stub.count_vectorizer Stub.generate
                      _ (lit "truck") 1 0%Q))) H1)|].
  split; [exact H2|].
  exact (proj1 (proj2 (proj2 (proj2
           (@answer_requests Stub.count_vectorizer Stub.generate
              _ (lit "truck") 1 0%Q)))) _ H2).
Defined.
